(** * Personal Access Token client of the Hub API (internal/hub/tokens.go)

    A shallow embedding of the token client: scope validation, the five
    CRUD operations, the paged listing and the wire/domain conversion.
    The collaborators the file calls but does not define (the request
    executor [c.doRequest], [encoding/json]'s decoder, [uuid.Parse],
    [net/url]) are the fields of one record, [Externals]; every theorem
    holds for all of them. *)

From stdpp Require Import base strings list sorting gmap pretty.
From Stdlib Require Import ZArith Lia.

Local Open Scope string_scope.
Local Open Scope list_scope.

(** ** Errors and library results *)

(** What a library call returns: a value, or the message of its error. *)
Inductive outcome (A : Type) : Type :=
| Ok (a : A)
| Fail (msg : string).
Arguments Ok {A} a.
Arguments Fail {A} msg.

(** Go's [error] values, tagged by where the code obtains them. *)
Inductive error : Type :=
| InvalidScope (scope : string)   (* fmt.Errorf("invalid scope %q", scope) *)
| InvalidUUID (msg : string)      (* the error of uuid.Parse *)
| DecodeError (msg : string)      (* the error of json.Unmarshal *)
| RequestError (msg : string)     (* the error of http.NewRequest or url.Parse *)
| TransportError (msg : string).  (* the error of c.doRequest *)

(** ** JSON documents

    A request body is kept as the document [json.Marshal] produces, an
    object being the list of its members in the order they are written. *)
#[local] Unset Elimination Schemes.
Inductive json : Type :=
| JNull
| JBool (b : bool)
| JNumber (n : Z)
| JString (s : string)
| JArray (items : list json)
| JObject (members : list (string * json)).
#[local] Set Elimination Schemes.

(** The value of the first member called [name], if any. *)
Fixpoint member_lookup (name : string) (members : list (string * json)) : option json :=
  match members with
  | [] => None
  | (k, v) :: rest => if String.eqb k name then Some v else member_lookup name rest
  end.

Definition json_field (name : string) (doc : json) : option json :=
  match doc with
  | JObject members => member_lookup name members
  | _ => None
  end.

(** ** Constants *)

Definition TokensURL : string := "/v2/api_tokens".

(** [fmt.Sprintf(TokenURL, tokenUUID)] with [TokenURL = "/v2/api_tokens/%s"]:
    the verb [%s] writes a string argument as it is. *)
Definition TokenURL (tokenUUID : string) : string := "/v2/api_tokens/" +:+ tokenUUID.

Definition validScopes : gset string := {[ "repo:public_read" ]}.

(** ** Data model *)

Module Token.
Record t {uuid_UUID time_Time : Type} : Type := mk {
  UUID : uuid_UUID;
  ClientID : string;
  CreatorIP : string;
  CreatorUA : string;
  CreatedAt : time_Time;
  LastUsed : time_Time;
  GeneratedBy : string;
  IsActive : bool;
  Token : string;
  Description : string;
  Scopes : list string
}.
Arguments t : clear implicits.
Arguments mk {uuid_UUID time_Time}.
End Token.

(** [hubTokenRequest], with tags
    [token_label,omitempty], [is_active,omitempty], [scopes,omitempty]. *)
Module hubTokenRequest.
Record t : Type := mk {
  Description : string;
  IsActive : bool;
  Scopes : list string
}.
End hubTokenRequest.

(** [hubTokenResult]; the field [TokenLabel] is tagged [token_label]. *)
Module hubTokenResult.
Record t {time_Time : Type} : Type := mk {
  UUID : string;
  ClientID : string;
  CreatorIP : string;
  CreatorUA : string;
  CreatedAt : time_Time;
  LastUsed : time_Time;
  GeneratedBy : string;
  IsActive : bool;
  Token : string;
  TokenLabel : string;
  Scopes : list string
}.
Arguments t : clear implicits.
Arguments mk {time_Time}.
End hubTokenResult.

Module hubTokenResponse.
Record t {time_Time : Type} : Type := mk {
  Count : Z;
  Next : string;
  Previous : string;
  Results : list (hubTokenResult.t time_Time)
}.
Arguments t : clear implicits.
Arguments mk {time_Time}.
End hubTokenResponse.

(** The fields of [Client] this file reads. *)
Record Client : Type := {
  domain : string;
  token : string;
  fetchAllElements : bool
}.

Record Request : Type := {
  Method : string;
  URL : string;
  Body : option json
}.

(** The request [http.NewRequest("GET", url, nil)] builds. *)
Definition get_request (url : string) : Request :=
  {| Method := "GET"; URL := url; Body := None |}.

Inductive RequestOp : Type :=
| WithHubToken (token : string).

(** ** Collaborators *)

Record Externals : Type := {
  (** the remote service and the connection to it *)
  World : Type;
  (** [c.doRequest(req, ops...)]: the response body, or an error (also for
      a status that is not a success) *)
  doRequest : Client -> Request -> list RequestOp -> World -> outcome string * World;
  (** the constant [itemsPerPage] of the package *)
  itemsPerPage : Z;
  (** [time.Time] and its zero value *)
  time_Time : Type;
  time_zero : time_Time;
  (** [uuid.UUID], [uuid.Nil] and [uuid.Parse] *)
  uuid_UUID : Type;
  uuid_Nil : uuid_UUID;
  uuid_Parse : string -> outcome uuid_UUID;
  (** [url.URL], [url.Parse], the assignment to [RawQuery], [String] and
      [url.Values.Encode] *)
  url_URL : Type;
  url_Parse : string -> outcome url_URL;
  url_set_RawQuery : url_URL -> string -> url_URL;
  url_String : url_URL -> string;
  url_Values_Encode : gmap string (list string) -> string;
  (** [json.Unmarshal] into a [hubTokenResult] and a [hubTokenResponse] *)
  json_Unmarshal_hubTokenResult : string -> outcome (hubTokenResult.t time_Time);
  json_Unmarshal_hubTokenResponse : string -> outcome (hubTokenResponse.t time_Time)
}.

(** [q.Add(key, value)] on a [url.Values]. *)
Definition url_Values_Add (q : gmap string (list string)) (key value : string)
  : gmap string (list string) :=
  <[ key := default [] (q !! key) ++ [value] ]> q.

(** [json.Marshal] of a [hubTokenRequest]: the members follow the order of the
    fields, and [omitempty] leaves out the empty string, [false] and the
    slice of length 0. It has no error for this type. *)
Definition json_Marshal_hubTokenRequest (r : hubTokenRequest.t) : json :=
  JObject
    ((if String.eqb (hubTokenRequest.Description r) ""
      then []
      else [("token_label", JString (hubTokenRequest.Description r))])
     ++ (if hubTokenRequest.IsActive r
         then [("is_active", JBool true)]
         else [])
     ++ (match hubTokenRequest.Scopes r with
         | [] => []
         | _ :: _ => [("scopes", JArray (map JString (hubTokenRequest.Scopes r)))]
         end)).

Section Operations.
Context (X : Externals).

Abbreviation Token := (Token.t (uuid_UUID X) (time_Time X)).
Abbreviation hubTokenResult := (hubTokenResult.t (time_Time X)).
Abbreviation hubTokenResponse := (hubTokenResponse.t (time_Time X)).

(** The remote world, and the requests handed to the executor so far. *)
Record State : Type := {
  world : World X;
  sent : list Request
}.

(** [http.NewRequest]: for the methods used here it fails exactly when
    [url.Parse] fails on the url. *)
Definition http_NewRequest (method url : string) (body : option json) : outcome Request :=
  match url_Parse X url with
  | Fail msg => Fail msg
  | Ok _ => Ok {| Method := method; URL := url; Body := body |}
  end.

(** The call [c.doRequest(req, ops...)], which is also recorded in [sent]. *)
Definition Client_doRequest (c : Client) (req : Request) (ops : list RequestOp)
           (st : State) : outcome string * State :=
  let '(r, w) := doRequest X c req ops (world st) in
  (r, {| world := w; sent := sent st ++ [req] |}).

(** [Token{}] *)
Definition Token_zero : Token :=
  Token.mk (uuid_Nil X) "" "" "" (time_zero X) (time_zero X) "" false "" "" [].

Definition convertToken (response : hubTokenResult) : Token * option error :=
  match uuid_Parse X (hubTokenResult.UUID response) with
  | Fail msg => (Token_zero, Some (InvalidUUID msg))
  | Ok u =>
      (Token.mk u
         (hubTokenResult.ClientID response)
         (hubTokenResult.CreatorIP response)
         (hubTokenResult.CreatorUA response)
         (hubTokenResult.CreatedAt response)
         (hubTokenResult.LastUsed response)
         (hubTokenResult.GeneratedBy response)
         (hubTokenResult.IsActive response)
         (hubTokenResult.Token response)
         (hubTokenResult.TokenLabel response)
         (hubTokenResult.Scopes response),
       None)
  end.

Fixpoint validateScopes (scopes : list string) : option error :=
  match scopes with
  | [] => None
  | scope :: rest =>
      if decide (scope ∈ validScopes)
      then validateScopes rest
      else Some (InvalidScope scope)
  end.

(** The tail shared by [CreateToken], [GetToken] and [UpdateToken]: run the
    request, decode the body, convert it. *)
Definition requestToken (c : Client) (req : Request) (st : State)
  : (option Token * option error) * State :=
  match Client_doRequest c req [WithHubToken (token c)] st with
  | (Fail msg, st1) => ((None, Some (TransportError msg)), st1)
  | (Ok response, st1) =>
      match json_Unmarshal_hubTokenResult X response with
      | Fail msg => ((None, Some (DecodeError msg)), st1)
      | Ok tokenResponse =>
          match convertToken tokenResponse with
          | (_, Some err) => ((None, Some err), st1)
          | (token, None) => ((Some token, None), st1)
          end
      end
  end.

Definition CreateToken (c : Client) (description : string) (scopes : list string)
           (st : State) : (option Token * option error) * State :=
  match validateScopes scopes with
  | Some err => ((None, Some err), st)
  | None =>
      let data := json_Marshal_hubTokenRequest
                    (hubTokenRequest.mk description false scopes) in
      match http_NewRequest "POST" (domain c +:+ TokensURL) (Some data) with
      | Fail msg => ((None, Some (RequestError msg)), st)
      | Ok req => requestToken c req st
      end
  end.

Definition GetToken (c : Client) (tokenUUID : string) (st : State)
  : (option Token * option error) * State :=
  match http_NewRequest "GET" (domain c +:+ TokenURL tokenUUID) None with
  | Fail msg => ((None, Some (RequestError msg)), st)
  | Ok req => requestToken c req st
  end.

Definition UpdateToken (c : Client) (tokenUUID description : string) (isActive : bool)
           (st : State) : (option Token * option error) * State :=
  let data := json_Marshal_hubTokenRequest
                (hubTokenRequest.mk description isActive []) in
  match http_NewRequest "PATCH" (domain c +:+ TokenURL tokenUUID) (Some data) with
  | Fail msg => ((None, Some (RequestError msg)), st)
  | Ok req => requestToken c req st
  end.

Definition RevokeToken (c : Client) (tokenUUID : string) (st : State)
  : option error * State :=
  match http_NewRequest "DELETE" (domain c +:+ TokenURL tokenUUID) None with
  | Fail msg => (Some (RequestError msg), st)
  | Ok req =>
      match Client_doRequest c req [WithHubToken (token c)] st with
      | (Fail msg, st1) => (Some (TransportError msg), st1)
      | (Ok _, st1) => (None, st1)
      end
  end.

(** The loop of [getTokensPage] over [hubResponse.Results]; [tokens] is
    the slice appended to. *)
Fixpoint convertResults (results : list hubTokenResult) (tokens : list Token)
  : list Token * option error :=
  match results with
  | [] => (tokens, None)
  | result :: rest =>
      match convertToken result with
      | (_, Some err) => ([], Some err)
      | (token, None) => convertResults rest (tokens ++ [token])
      end
  end.

Definition getTokensPage (c : Client) (url : string) (st : State)
  : (list Token * string * option error) * State :=
  match http_NewRequest "GET" url None with
  | Fail msg => (([], "", Some (RequestError msg)), st)
  | Ok req =>
      match Client_doRequest c req [WithHubToken (token c)] st with
      | (Fail msg, st1) => (([], "", Some (TransportError msg)), st1)
      | (Ok response, st1) =>
          match json_Unmarshal_hubTokenResponse X response with
          | Fail msg => (([], "", Some (DecodeError msg)), st1)
          | Ok hubResponse =>
              match convertResults (hubTokenResponse.Results hubResponse) [] with
              | (_, Some err) => (([], "", Some err), st1)
              | (tokens, None) => ((tokens, hubTokenResponse.Next hubResponse, None), st1)
              end
          end
      end
  end.

(** [for next != "" { ... }] of [GetTokens]. The loop has no bound of its
    own: [fuel] bounds the iterations, and [None] says it ran out. *)
Fixpoint GetTokens_loop (fuel : nat) (c : Client) (tokens : list Token) (next : string)
         (st : State) : option ((list Token * option error) * State) :=
  if String.eqb next "" then Some ((tokens, None), st)
  else
    match fuel with
    | O => None
    | S fuel' =>
        match getTokensPage c next st with
        | ((_, _, Some err), st1) => Some (([], Some err), st1)
        | ((pageTokens, n, None), st1) =>
            GetTokens_loop fuel' c (tokens ++ pageTokens) n st1
        end
    end.

(** The url of the first page: [page_size] and [page=1] on the collection. *)
Definition firstPageURL (c : Client) : outcome string :=
  match url_Parse X (domain c +:+ TokensURL) with
  | Fail msg => Fail msg
  | Ok u =>
      let q := (∅ : gmap string (list string)) in
      let q := url_Values_Add q "page_size" (pretty (itemsPerPage X)) in
      let q := url_Values_Add q "page" "1" in
      let u := url_set_RawQuery X u (url_Values_Encode X q) in
      Ok (url_String X u)
  end.

Definition GetTokens (fuel : nat) (c : Client) (st : State)
  : option ((list Token * option error) * State) :=
  match firstPageURL c with
  | Fail msg => Some (([], Some (RequestError msg)), st)
  | Ok u =>
      match getTokensPage c u st with
      | ((_, _, Some err), st1) => Some (([], Some err), st1)
      | ((tokens, next, None), st1) =>
          if fetchAllElements c
          then GetTokens_loop fuel c tokens next st1
          else Some ((tokens, None), st1)
      end
  end.

End Operations.

Arguments world {X}.
Arguments sent {X}.

(** ** The sequence of page fetches of [GetTokens] *)

Abbreviation Tokens X := (list (Token.t (uuid_UUID X) (time_Time X))).

Section Pages.
Context (X : Externals).

(** [fetch_chain k c url st] is [Some (u, st')] when [k] page fetches in a
    row, the first at [url] in [st] and each next one at the previous page's
    [next] link, all succeeded with a [next] link that is not empty: [u] is
    the link of the last of them and [st'] the state it left. *)
Fixpoint fetch_chain (k : nat) (c : Client) (url : string) (st : State X)
  : option (string * State X) :=
  match k with
  | O => Some (url, st)
  | S k' =>
      match getTokensPage X c url st with
      | ((_, _, Some _), _) => None
      | ((_, next, None), st1) =>
          if String.eqb next "" then None else fetch_chain k' c next st1
      end
  end.

(** The fetch of [url] in [st] ends the listing: it fails, or its [next]
    link is empty. *)
Definition page_stops (c : Client) (url : string) (st : State X) : Prop :=
  match getTokensPage X c url st with
  | ((_, _, Some _), _) => True
  | ((_, next, None), _) => next = ""
  end.

(** [page_run c url st pages st']: fetching [url] in [st] and following the
    [next] links gives the pages [pages], every fetch succeeds, the last one
    and only the last one has an empty [next] link, and [st'] is the state
    after the last fetch. *)
Inductive page_run (c : Client)
  : string -> State X -> list (list (Token.t (uuid_UUID X) (time_Time X))) -> State X -> Prop :=
| page_run_last url st tokens st1 :
    getTokensPage X c url st = ((tokens, "", None), st1) ->
    page_run c url st [tokens] st1
| page_run_next url st tokens next st1 pages st2 :
    getTokensPage X c url st = ((tokens, next, None), st1) ->
    next <> "" ->
    page_run c next st1 pages st2 ->
    page_run c url st (tokens :: pages) st2.

End Pages.

(** ** A scripted service, to run the operations on *)

Module Mock.

(** A url with an ASCII control character is what [url.Parse] refuses. *)
Definition has_control_char (s : string) : bool :=
  existsb (fun a => let n := Ascii.nat_of_ascii a in (n <? 32)%nat || (n =? 127)%nat)
          (String.list_ascii_of_string s).

Definition parse_url (s : string) : outcome string :=
  if has_control_char s then Fail "net/url: invalid control character in URL" else Ok s.

(** Only the length of the canonical form is checked. *)
Definition parse_uuid (s : string) : outcome string :=
  if (String.length s =? 36)%nat then Ok s else Fail "invalid UUID length".

Definition result (uuid label : string) : hubTokenResult.t Z :=
  hubTokenResult.mk uuid "client" "10.0.0.1" "hub-tool" 1%Z 2%Z "manual" true "" label
                    ["repo:public_read"].

Definition uuid1 : string := "8208674e-d08a-426f-b6f4-e3aba7058459".
Definition uuid2 : string := "0f0e0d0c-0b0a-4908-8706-050403020100".

(** The bodies the decoders know. *)
Definition decode_result (body : string) : outcome (hubTokenResult.t Z) :=
  if String.eqb body "token1" then Ok (result uuid1 "d")
  else if String.eqb body "badtoken" then Ok (result "not-a-uuid" "d")
  else Fail "unexpected end of JSON input".

Definition decode_response (body : string) : outcome (hubTokenResponse.t Z) :=
  if String.eqb body "page1" then
    Ok (hubTokenResponse.mk 2 "page2url" "" [result uuid1 "first"])
  else if String.eqb body "page2" then
    Ok (hubTokenResponse.mk 2 "" "page1url" [result uuid2 "second"])
  else if String.eqb body "badpage" then
    Ok (hubTokenResponse.mk 2 "" "" [result uuid1 "first"; result "not-a-uuid" "second"])
  else if String.eqb body "again" then
    Ok (hubTokenResponse.mk 1 "again-url" "" [result uuid1 "first"])
  else Fail "unexpected end of JSON input".

(** The service answers the requests with the scripted outcomes, in order. *)
Definition scripted (_ : Client) (_ : Request) (_ : list RequestOp)
           (w : list (outcome string)) : outcome string * list (outcome string) :=
  match w with
  | [] => (Fail "connection refused", [])
  | r :: rest => (r, rest)
  end.

(** The service answers every request with the same body. *)
Definition constant (body : string) (_ : Client) (_ : Request) (_ : list RequestOp)
           (w : unit) : outcome string * unit :=
  (Ok body, w).

(** The keys in increasing order, each with its values in the order added. *)
Definition encode_values (q : gmap string (list string)) : string :=
  String.concat "&"
    (concat
       (map (fun kv => map (fun v => fst kv +:+ "=" +:+ v) (snd kv))
            (merge_sort (fun x y => Is_true (String.leb (fst x) (fst y))) (map_to_list q)))).

Definition externals {W : Type}
           (run : Client -> Request -> list RequestOp -> W -> outcome string * W)
  : Externals :=
  {| World := W;
     doRequest := run;
     itemsPerPage := 100;
     time_Time := Z;
     time_zero := 0%Z;
     uuid_UUID := string;
     uuid_Nil := "00000000-0000-0000-0000-000000000000";
     uuid_Parse := parse_uuid;
     url_URL := string;
     url_Parse := parse_url;
     url_set_RawQuery := fun u q => u +:+ "?" +:+ q;
     url_String := fun u => u;
     url_Values_Encode := encode_values;
     json_Unmarshal_hubTokenResult := decode_result;
     json_Unmarshal_hubTokenResponse := decode_response |}.

Definition X_scripted : Externals := externals scripted.
Definition X_again : Externals := externals (constant "again").

Definition client (all : bool) : Client :=
  {| domain := "https://hub.docker.com"; token := "secret"; fetchAllElements := all |}.

Definition start (script : list (outcome string)) : State X_scripted :=
  Build_State X_scripted script [].

Definition token (uuid label : string) : Token.t string Z :=
  Token.mk uuid "client" "10.0.0.1" "hub-tool" 1%Z 2%Z "manual" true "" label
           ["repo:public_read"].

End Mock.

(** ** Scope validation *)

Lemma validScopes_spec (scope : string) :
  scope ∈ validScopes <-> scope = "repo:public_read".
Proof. unfold validScopes. apply elem_of_singleton. Qed.

Lemma validateScopes_all_valid (scopes : list string) :
  Forall (fun s => s = "repo:public_read") scopes -> validateScopes scopes = None.
Proof.
  induction 1 as [| s rest Hs _ IH]; simpl; [reflexivity |].
  destruct (decide (s ∈ validScopes)) as [_ | Hn]; [exact IH |].
  exfalso. apply Hn, validScopes_spec, Hs.
Qed.

Lemma validateScopes_first_invalid (pre post : list string) (bad : string) :
  Forall (fun s => s = "repo:public_read") pre ->
  bad <> "repo:public_read" ->
  validateScopes (pre ++ bad :: post) = Some (InvalidScope bad).
Proof.
  intros Hpre Hbad. induction Hpre as [| s rest Hs _ IH]; simpl.
  - destruct (decide (bad ∈ validScopes)) as [Hin | _]; [| reflexivity].
    exfalso. apply Hbad, validScopes_spec, Hin.
  - destruct (decide (s ∈ validScopes)) as [_ | Hn]; [exact IH |].
    exfalso. apply Hn, validScopes_spec, Hs.
Qed.

(** Every list with a scope outside the allow-list splits at the first one. *)
Lemma first_invalid_split (scopes : list string) :
  (exists s, In s scopes /\ s <> "repo:public_read") ->
  exists pre bad post,
    scopes = pre ++ bad :: post
    /\ Forall (fun s => s = "repo:public_read") pre
    /\ bad <> "repo:public_read".
Proof.
  induction scopes as [| s rest IH]; intros [x [Hin Hx]]; [destruct Hin |].
  destruct (String.eqb_spec s "repo:public_read") as [Heq | Hne].
  - destruct Hin as [-> | Hin]; [contradiction |].
    destruct IH as (pre & bad & post & -> & Hpre & Hbad); [eauto |].
    exists (s :: pre), bad, post. repeat split; auto.
  - exists [], s, rest. repeat split; auto.
Qed.

(** C1. A scopes list with a string other than "repo:public_read" makes
    [CreateToken] fail with [InvalidScope] naming the first such string, the
    scopes before it being all valid, and leaves the state as it was: no
    request has been handed to the executor and the remote world is
    untouched. A list of valid scopes only passes [validateScopes]. *)
Theorem CreateToken_rejects_first_invalid_scope
        (X : Externals) (c : Client) (description : string) :
  (forall (scopes : list string) (st : State X),
      (exists s, In s scopes /\ s <> "repo:public_read") ->
      exists pre bad post,
        scopes = pre ++ bad :: post
        /\ Forall (fun s => s = "repo:public_read") pre
        /\ bad <> "repo:public_read"
        /\ CreateToken X c description scopes st = ((None, Some (InvalidScope bad)), st))
  /\ (forall scopes : list string,
         Forall (fun s => s = "repo:public_read") scopes ->
         validateScopes scopes = None).
Proof.
  split.
  - intros scopes st Hex.
    destruct (first_invalid_split scopes Hex) as (pre & bad & post & -> & Hpre & Hbad).
    exists pre, bad, post. repeat split; auto.
    unfold CreateToken. now rewrite validateScopes_first_invalid.
  - apply validateScopes_all_valid.
Qed.

Lemma CreateToken_rejects_first_invalid_scope_witness :
  (exists pre bad post,
      ["repo:public_read"; "repo:write"; "repo:admin"] = pre ++ bad :: post
      /\ Forall (fun s => s = "repo:public_read") pre
      /\ bad <> "repo:public_read"
      /\ CreateToken Mock.X_scripted (Mock.client false) "x"
                     ["repo:public_read"; "repo:write"; "repo:admin"]
                     (Mock.start [Ok "token1"])
         = ((None, Some (InvalidScope bad)), Mock.start [Ok "token1"]))
  /\ validateScopes ["repo:public_read"; "repo:public_read"] = None.
Proof.
  destruct (CreateToken_rejects_first_invalid_scope Mock.X_scripted (Mock.client false) "x")
    as [Hbad Hgood].
  split.
  - apply Hbad. exists "repo:write". split; [simpl; auto | discriminate].
  - apply Hgood. repeat constructor.
Defined.

(** ** The paged listing *)

Section Listing.
Context (X : Externals).

(** A page fetch that succeeds has handed exactly one request to the
    executor, a GET of the url it was asked for. *)
Lemma getTokensPage_sent (c : Client) (url : string) (st st1 : State X)
      (tokens : Tokens X) (next : string) :
  getTokensPage X c url st = ((tokens, next, None), st1) ->
  sent st1 = sent st ++ [get_request url].
Proof.
  unfold getTokensPage, http_NewRequest, Client_doRequest.
  destruct (url_Parse X url); [| discriminate].
  destruct (doRequest X c _ _ (world st)) as [[body | msg] w]; [| discriminate].
  destruct (json_Unmarshal_hubTokenResponse X body) as [hr | msg]; [| discriminate].
  destruct (convertResults X _ []) as [toks [err |]]; [discriminate |].
  intros H. inversion H; subst. reflexivity.
Qed.

Lemma GetTokens_loop_empty (fuel : nat) (c : Client) (tokens : Tokens X) (st : State X) :
  GetTokens_loop X fuel c tokens "" st = Some ((tokens, None), st).
Proof. destruct fuel; reflexivity. Qed.

Lemma GetTokens_loop_step (fuel : nat) (c : Client) (tokens : Tokens X) (next : string)
      (st : State X) :
  next <> "" ->
  GetTokens_loop X (S fuel) c tokens next st =
  match getTokensPage X c next st with
  | ((_, _, Some err), st1) => Some (([], Some err), st1)
  | ((pageTokens, n, None), st1) => GetTokens_loop X fuel c (tokens ++ pageTokens) n st1
  end.
Proof.
  intros Hne. simpl. destruct (String.eqb_spec next ""); [contradiction | reflexivity].
Qed.

Lemma GetTokens_loop_no_fuel (c : Client) (tokens : Tokens X) (next : string) (st : State X) :
  next <> "" -> GetTokens_loop X 0 c tokens next st = None.
Proof.
  intros Hne. simpl. destruct (String.eqb_spec next ""); [contradiction | reflexivity].
Qed.

(** The loop over a run of pages returns what it had, followed by the pages
    in their order, in the state the last fetch left. *)
Lemma GetTokens_loop_page_run (c : Client) (next : string) (st st' : State X)
      (pages : list (Tokens X)) :
  page_run X c next st pages st' ->
  next <> "" ->
  forall (tokens : Tokens X) (fuel : nat),
    length pages <= fuel ->
    GetTokens_loop X fuel c tokens next st = Some ((tokens ++ concat pages, None), st').
Proof.
  induction 1 as [url st tokens1 st1 Hpage
                 | url st tokens1 next st1 pages st2 Hpage Hnext _ IH];
    intros Hne tokens fuel Hfuel; simpl in Hfuel.
  - destruct fuel as [| fuel]; [lia |].
    rewrite GetTokens_loop_step, Hpage by assumption.
    rewrite GetTokens_loop_empty. simpl. now rewrite app_nil_r.
  - destruct fuel as [| fuel]; [lia |].
    rewrite GetTokens_loop_step, Hpage by assumption.
    rewrite IH by (assumption || lia). simpl. now rewrite app_assoc.
Qed.

(** The requests of a run of pages: one GET for each page, the first at the
    url the run starts from. *)
Lemma page_run_sent (c : Client) (url : string) (st st' : State X) (pages : list (Tokens X)) :
  page_run X c url st pages st' ->
  exists urls : list string,
    length urls = length pages
    /\ hd_error urls = Some url
    /\ sent st' = sent st ++ map get_request urls.
Proof.
  induction 1 as [url st tokens1 st1 Hpage
                 | url st tokens1 next st1 pages st2 Hpage Hnext _ IH].
  - exists [url]. repeat split. now apply getTokensPage_sent in Hpage.
  - destruct IH as (urls & Hlen & _ & Hsent).
    exists (url :: urls). repeat split; [simpl; now rewrite Hlen |].
    apply getTokensPage_sent in Hpage. rewrite Hsent, Hpage.
    now rewrite <- app_assoc.
Qed.

(** After [k] good pages with a link to follow, a fetch that fails ends the
    loop with that error and no tokens. *)
Lemma GetTokens_loop_chain_error (c : Client) (k : nat) :
  forall (next url : string) (st st1 st2 : State X) (toks : Tokens X) (nxt : string)
         (err : error) (tokens : Tokens X) (fuel : nat),
    next <> "" ->
    fetch_chain X k c next st = Some (url, st1) ->
    getTokensPage X c url st1 = ((toks, nxt, Some err), st2) ->
    k < fuel ->
    GetTokens_loop X fuel c tokens next st = Some (([], Some err), st2).
Proof.
  induction k as [| k IH]; intros next url st st1 st2 toks nxt err tokens fuel Hne Hchain Hpage Hfuel;
    (destruct fuel as [| fuel]; [lia |]); rewrite GetTokens_loop_step by assumption;
    simpl in Hchain.
  - inversion Hchain; subst. now rewrite Hpage.
  - destruct (getTokensPage X c next st) as [[[pt n] [e |]] st0]; [discriminate |].
    destruct (String.eqb_spec n "") as [| Hn]; [discriminate |].
    apply (IH n url st0 st1 st2 toks nxt err); auto. lia.
Qed.

(** After [k] good pages with a link to follow, a page with an empty link
    ends the loop with some result. *)
Lemma GetTokens_loop_chain_stops (c : Client) (k : nat) :
  forall (next url : string) (st st1 : State X) (tokens : Tokens X),
    next <> "" ->
    fetch_chain X k c next st = Some (url, st1) ->
    page_stops X c url st1 ->
    exists r, forall fuel, k < fuel -> GetTokens_loop X fuel c tokens next st = Some r.
Proof.
  induction k as [| k IH]; intros next url st st1 tokens Hne Hchain Hstop; simpl in Hchain.
  - inversion Hchain; subst. unfold page_stops in Hstop.
    destruct (getTokensPage X c url st1) as [[[pt n] [e |]] st0] eqn:Hpage.
    + exists (([], Some e), st0). intros [| fuel] Hfuel; [lia |].
      now rewrite GetTokens_loop_step, Hpage.
    + subst n. exists ((tokens ++ pt, None), st0). intros [| fuel] Hfuel; [lia |].
      rewrite GetTokens_loop_step, Hpage by assumption. apply GetTokens_loop_empty.
  - destruct (getTokensPage X c next st) as [[[pt n] [e |]] st0] eqn:Hpage; [discriminate |].
    destruct (String.eqb_spec n "") as [| Hn]; [discriminate |].
    destruct (IH n url st0 st1 (tokens ++ pt) Hn Hchain Hstop) as [r Hr].
    exists r. intros [| fuel] Hfuel; [lia |].
    rewrite GetTokens_loop_step, Hpage by assumption. apply Hr. lia.
Qed.

(** A loop that returns has met a page that stops it. *)
Lemma GetTokens_loop_returns (c : Client) (fuel : nat) :
  forall (next : string) (st : State X) (tokens : Tokens X) r,
    next <> "" ->
    GetTokens_loop X fuel c tokens next st = Some r ->
    exists k url st1,
      fetch_chain X k c next st = Some (url, st1) /\ page_stops X c url st1.
Proof.
  induction fuel as [| fuel IH]; intros next st tokens r Hne Hloop.
  - rewrite GetTokens_loop_no_fuel in Hloop by assumption. discriminate.
  - rewrite GetTokens_loop_step in Hloop by assumption.
    destruct (getTokensPage X c next st) as [[[pt n] [e |]] st0] eqn:Hpage.
    + exists 0, next, st. split; [reflexivity |]. unfold page_stops. now rewrite Hpage.
    + destruct (String.eqb_spec n "") as [-> | Hn].
      * exists 0, next, st. split; [reflexivity |]. unfold page_stops. now rewrite Hpage.
      * destruct (IH n st0 (tokens ++ pt) r Hn Hloop) as (k & url & st1 & Hchain & Hstop).
        exists (S k), url, st1. split; [| assumption].
        simpl. rewrite Hpage. now destruct (String.eqb_spec n "").
Qed.

End Listing.

(** C2. With the fetch-all flag off, [GetTokens] returns the tokens of the
    first page and stops in the state that one fetch left, whatever the
    page's [next] link is. With the flag on, when following the [next] links
    from the first page gives a run of pages ending at the first empty link,
    [GetTokens] returns the pages' tokens concatenated in page order and
    stops in the state the last of these fetches left: one GET for each
    page, and none after the page with the empty link. *)
Theorem GetTokens_first_page_or_all_pages
        (X : Externals) (c : Client) (st : State X) (u : string) :
  firstPageURL X c = Ok u ->
  (fetchAllElements c = false ->
   forall tokens next st1 fuel,
     getTokensPage X c u st = ((tokens, next, None), st1) ->
     GetTokens X fuel c st = Some ((tokens, None), st1)
     /\ sent st1 = sent st ++ [get_request u])
  /\ (fetchAllElements c = true ->
      forall pages st',
        page_run X c u st pages st' ->
        (forall fuel, length pages <= fuel ->
                      GetTokens X fuel c st = Some ((concat pages, None), st'))
        /\ exists urls : list string,
            length urls = length pages
            /\ hd_error urls = Some u
            /\ sent st' = sent st ++ map get_request urls).
Proof.
  intros Hu. split; intros Hflag.
  - intros tokens next st1 fuel Hpage. split.
    + unfold GetTokens. now rewrite Hu, Hpage, Hflag.
    + now apply getTokensPage_sent in Hpage.
  - intros pages st' Hrun. split; [| now apply page_run_sent with (c := c)].
    intros fuel Hfuel. unfold GetTokens. rewrite Hu.
    inversion Hrun as [url st0 tokens st1 Hpage
                      | url st0 tokens next st1 rest st2 Hpage Hnext Hrest]; subst.
    + rewrite Hpage, Hflag, GetTokens_loop_empty. simpl. now rewrite app_nil_r.
    + rewrite Hpage, Hflag. simpl in Hfuel.
      apply GetTokens_loop_page_run; [assumption .. | lia].
Qed.

Lemma GetTokens_first_page_or_all_pages_witness :
  GetTokens Mock.X_scripted 0 (Mock.client false) (Mock.start [Ok "page1"; Ok "page2"])
  = Some (([Mock.token Mock.uuid1 "first"], None),
          Build_State Mock.X_scripted [Ok "page2"]
            [get_request "https://hub.docker.com/v2/api_tokens?page=1&page_size=100"])
  /\ GetTokens Mock.X_scripted 2 (Mock.client true) (Mock.start [Ok "page1"; Ok "page2"])
     = Some (([Mock.token Mock.uuid1 "first"; Mock.token Mock.uuid2 "second"], None),
             Build_State Mock.X_scripted []
               [get_request "https://hub.docker.com/v2/api_tokens?page=1&page_size=100";
                get_request "page2url"]).
Proof.
  split.
  - destruct (GetTokens_first_page_or_all_pages
                Mock.X_scripted (Mock.client false) (Mock.start [Ok "page1"; Ok "page2"])
                "https://hub.docker.com/v2/api_tokens?page=1&page_size=100")
      as [Hoff _]; [vm_compute; reflexivity |].
    apply (Hoff eq_refl [Mock.token Mock.uuid1 "first"] "page2url"
                (Build_State Mock.X_scripted [Ok "page2"]
                   [get_request "https://hub.docker.com/v2/api_tokens?page=1&page_size=100"])
                0).
    vm_compute. reflexivity.
  - destruct (GetTokens_first_page_or_all_pages
                Mock.X_scripted (Mock.client true) (Mock.start [Ok "page1"; Ok "page2"])
                "https://hub.docker.com/v2/api_tokens?page=1&page_size=100")
      as [_ Hon]; [vm_compute; reflexivity |].
    apply (Hon eq_refl [[Mock.token Mock.uuid1 "first"]; [Mock.token Mock.uuid2 "second"]]);
      [| simpl; lia].
    apply page_run_next
      with (next := "page2url")
           (st1 := Build_State Mock.X_scripted [Ok "page2"]
                     [get_request "https://hub.docker.com/v2/api_tokens?page=1&page_size=100"]);
      [vm_compute; reflexivity | discriminate |].
    apply page_run_last. vm_compute. reflexivity.
Defined.

(** C3. Whichever page fetch fails, the first one or, with the fetch-all
    flag on, one reached after [k] good pages whose links were followed,
    [GetTokens] returns that fetch's error with an empty token
    sequence: the tokens of the [k] pages already fetched are not returned. *)
Theorem GetTokens_error_discards_pages
        (X : Externals) (c : Client) (st st1 st2 : State X) (u url : string) (k : nat)
        (toks : list (Token.t (uuid_UUID X) (time_Time X))) (nxt : string) (err : error) :
  firstPageURL X c = Ok u ->
  k = 0 \/ fetchAllElements c = true ->
  fetch_chain X k c u st = Some (url, st1) ->
  getTokensPage X c url st1 = ((toks, nxt, Some err), st2) ->
  forall fuel, k <= fuel -> GetTokens X fuel c st = Some (([], Some err), st2).
Proof.
  intros Hu Hflag Hchain Hpage fuel Hfuel. unfold GetTokens. rewrite Hu.
  destruct k as [| k]; simpl in Hchain.
  - inversion Hchain; subst. now rewrite Hpage.
  - destruct Hflag as [| Hflag]; [discriminate |].
    destruct (getTokensPage X c u st) as [[[pt n] [e |]] st0]; [discriminate |].
    destruct (String.eqb_spec n "") as [| Hn]; [discriminate |].
    rewrite Hflag.
    apply (GetTokens_loop_chain_error X c k n url st0 st1 st2 toks nxt err); auto.
Qed.

Lemma GetTokens_error_discards_pages_witness :
  GetTokens Mock.X_scripted 1 (Mock.client true) (Mock.start [Ok "page1"; Fail "503"])
  = Some (([], Some (TransportError "503")),
          Build_State Mock.X_scripted []
            [get_request "https://hub.docker.com/v2/api_tokens?page=1&page_size=100";
             get_request "page2url"]).
Proof.
  apply (GetTokens_error_discards_pages
           Mock.X_scripted (Mock.client true) (Mock.start [Ok "page1"; Fail "503"])
           (Build_State Mock.X_scripted [Fail "503"]
              [get_request "https://hub.docker.com/v2/api_tokens?page=1&page_size=100"])
           _ "https://hub.docker.com/v2/api_tokens?page=1&page_size=100" "page2url" 1
           [] "" (TransportError "503"));
    [vm_compute; reflexivity | right; reflexivity | vm_compute; reflexivity
     | vm_compute; reflexivity | lia].
Defined.

(** The service that answers every request with a page whose [next] link is
    not empty keeps the loop going for every amount of fuel, though every
    request after the first asks for the same url. *)
Lemma GetTokens_loop_again (fuel : nat) :
  forall (tokens : list (Token.t string Z)) (st : State Mock.X_again),
    GetTokens_loop Mock.X_again fuel (Mock.client true) tokens "again-url" st = None.
Proof.
  induction fuel as [| fuel IH]; intros tokens st; [reflexivity |].
  rewrite GetTokens_loop_step by discriminate.
  change (getTokensPage Mock.X_again (Mock.client true) "again-url" st)
    with (([Mock.token Mock.uuid1 "first"], "again-url", @None error),
          Build_State Mock.X_again (world st) (sent st ++ [get_request "again-url"])).
  apply IH.
Qed.

(** C10. With the fetch-all flag on, [GetTokens] returns for some amount of
    fuel exactly when the chain of fetches, each following the link of the
    page before, reaches a fetch that fails or whose [next] link is empty.
    Nothing else stops the loop: against a service whose pages all link to
    the same url it returns for no amount of fuel. *)
Theorem GetTokens_terminates_iff_page_stops :
  (forall (X : Externals) (c : Client) (st : State X) (u : string),
      firstPageURL X c = Ok u ->
      fetchAllElements c = true ->
      ((exists fuel r, GetTokens X fuel c st = Some r)
       <-> (exists k url st1,
               fetch_chain X k c u st = Some (url, st1) /\ page_stops X c url st1)))
  /\ (forall fuel : nat,
         GetTokens Mock.X_again fuel (Mock.client true) (Build_State Mock.X_again tt [])
         = None).
Proof.
  split.
  - intros X c st u Hu Hflag. unfold GetTokens. rewrite Hu. split.
    + intros (fuel & r & Hr).
      destruct (getTokensPage X c u st) as [[[pt n] [e |]] st0] eqn:Hpage.
      * exists 0, u, st. split; [reflexivity |]. unfold page_stops. now rewrite Hpage.
      * rewrite Hflag in Hr. destruct (String.eqb_spec n "") as [-> | Hn].
        -- exists 0, u, st. split; [reflexivity |]. unfold page_stops. now rewrite Hpage.
        -- destruct (GetTokens_loop_returns X c fuel n st0 pt r Hn Hr)
             as (k & url & st1 & Hchain & Hstop).
           exists (S k), url, st1. split; [| assumption].
           simpl. rewrite Hpage. now destruct (String.eqb_spec n "").
    + intros (k & url & st1 & Hchain & Hstop).
      destruct k as [| k]; simpl in Hchain.
      * inversion Hchain; subst. unfold page_stops in Hstop.
        destruct (getTokensPage X c url st1) as [[[pt n] [e |]] st0]; [exists 0; eauto |].
        subst n. rewrite Hflag. exists 0. rewrite GetTokens_loop_empty. eauto.
      * destruct (getTokensPage X c u st) as [[[pt n] [e |]] st0]; [discriminate |].
        destruct (String.eqb_spec n "") as [| Hn]; [discriminate |].
        rewrite Hflag.
        destruct (GetTokens_loop_chain_stops X c k n url st0 st1 pt Hn Hchain Hstop) as [r Hr].
        exists (S k), r. apply Hr. lia.
  - intros fuel. unfold GetTokens.
    change (firstPageURL Mock.X_again (Mock.client true))
      with (@Ok string "https://hub.docker.com/v2/api_tokens?page=1&page_size=100").
    cbv beta iota.
    change (getTokensPage Mock.X_again (Mock.client true)
              "https://hub.docker.com/v2/api_tokens?page=1&page_size=100"
              (Build_State Mock.X_again tt []))
      with (([Mock.token Mock.uuid1 "first"], "again-url", @None error),
            Build_State Mock.X_again tt
              [get_request "https://hub.docker.com/v2/api_tokens?page=1&page_size=100"]).
    cbv beta iota. apply GetTokens_loop_again.
Qed.

Lemma GetTokens_terminates_iff_page_stops_witness :
  exists fuel r,
    GetTokens Mock.X_scripted fuel (Mock.client true) (Mock.start [Ok "page1"; Ok "page2"])
    = Some r.
Proof.
  destruct GetTokens_terminates_iff_page_stops as [Hiff _].
  apply (Hiff Mock.X_scripted (Mock.client true) (Mock.start [Ok "page1"; Ok "page2"])
              "https://hub.docker.com/v2/api_tokens?page=1&page_size=100");
    [vm_compute; reflexivity | reflexivity |].
  exists 1, "page2url",
    (Build_State Mock.X_scripted [Ok "page2"]
       [get_request "https://hub.docker.com/v2/api_tokens?page=1&page_size=100"]).
  split; vm_compute; reflexivity.
Defined.

(** ** Single-token operations *)

Section SingleToken.
Context (X : Externals).

(** A response whose uuid does not parse makes the shared tail fail with
    the parser's error. *)
Lemma requestToken_malformed_uuid (c : Client) (req : Request) (st st1 : State X)
      (body : string) (r : hubTokenResult.t (time_Time X)) (msg : string) :
  Client_doRequest X c req [WithHubToken (token c)] st = (Ok body, st1) ->
  json_Unmarshal_hubTokenResult X body = Ok r ->
  uuid_Parse X (hubTokenResult.UUID r) = Fail msg ->
  requestToken X c req st = ((None, Some (InvalidUUID msg)), st1).
Proof.
  intros Hdo Hdec Hparse. unfold requestToken, convertToken.
  now rewrite Hdo, Hdec, Hparse.
Qed.

(** The shared tail hands exactly the request to the executor. *)
Lemma requestToken_sent (c : Client) (req : Request) (st : State X) :
  sent (snd (requestToken X c req st)) = sent st ++ [req].
Proof.
  unfold requestToken, Client_doRequest.
  destruct (doRequest X c req _ (world st)) as [[body | msg] w]; [| reflexivity].
  destruct (json_Unmarshal_hubTokenResult X body) as [r | msg]; [| reflexivity].
  now destruct (convertToken X r) as [tok [err |]].
Qed.

(** An [InvalidUUID] error of the shared tail is the parser's error on the
    uuid of the decoded response. *)
Lemma requestToken_InvalidUUID_origin (c : Client) (req : Request) (st st1 : State X)
      (res : option (Token.t (uuid_UUID X) (time_Time X))) (msg : string) :
  requestToken X c req st = ((res, Some (InvalidUUID msg)), st1) ->
  exists body r,
    Client_doRequest X c req [WithHubToken (token c)] st = (Ok body, st1)
    /\ json_Unmarshal_hubTokenResult X body = Ok r
    /\ uuid_Parse X (hubTokenResult.UUID r) = Fail msg.
Proof.
  unfold requestToken, convertToken.
  destruct (Client_doRequest X c req _ st) as [[body | m] st0]; [| discriminate].
  destruct (json_Unmarshal_hubTokenResult X body) as [r | m] eqn:Hdec; [| discriminate].
  destruct (uuid_Parse X (hubTokenResult.UUID r)) as [u | m] eqn:Hparse; [discriminate |].
  intros H. inversion H; subst. exists body, r. repeat split; assumption.
Qed.

(** One entry whose uuid does not parse fails the conversion of a page. *)
Lemma convertResults_malformed_uuid (results : list (hubTokenResult.t (time_Time X))) :
  forall (tokens : list (Token.t (uuid_UUID X) (time_Time X)))
         (r : hubTokenResult.t (time_Time X)) (msg : string),
    In r results ->
    uuid_Parse X (hubTokenResult.UUID r) = Fail msg ->
    exists msg', convertResults X results tokens = ([], Some (InvalidUUID msg')).
Proof.
  induction results as [| r0 rest IH]; intros tokens r msg Hin Hparse; [destruct Hin |].
  simpl. unfold convertToken at 1.
  destruct (uuid_Parse X (hubTokenResult.UUID r0)) as [u | m] eqn:H0; [| eauto].
  destruct Hin as [-> | Hin]; [congruence |].
  eapply IH; eauto.
Qed.

Lemma getTokensPage_malformed_uuid (c : Client) (url : string) (st st1 : State X)
      (req : Request) (body : string) (hr : hubTokenResponse.t (time_Time X))
      (r : hubTokenResult.t (time_Time X)) (msg : string) :
  http_NewRequest X "GET" url None = Ok req ->
  Client_doRequest X c req [WithHubToken (token c)] st = (Ok body, st1) ->
  json_Unmarshal_hubTokenResponse X body = Ok hr ->
  In r (hubTokenResponse.Results hr) ->
  uuid_Parse X (hubTokenResult.UUID r) = Fail msg ->
  exists msg', getTokensPage X c url st = (([], "", Some (InvalidUUID msg')), st1).
Proof.
  intros Hreq Hdo Hdec Hin Hparse. unfold getTokensPage.
  rewrite Hreq, Hdo, Hdec.
  destruct (convertResults_malformed_uuid _ [] r msg Hin Hparse) as [msg' ->].
  eauto.
Qed.

End SingleToken.

(** C4. When the response decodes to a token object whose uuid field
    [uuid.Parse] refuses, [CreateToken], [GetToken] and [UpdateToken] return
    no token and the [InvalidUUID] error of the parser. When a page that
    [GetTokens] fetches (the first, or with the fetch-all flag on one
    reached by following links) decodes to an envelope with such an entry,
    [GetTokens] returns no tokens and an [InvalidUUID] error. *)
Theorem malformed_uuid_fails_the_call (X : Externals) (c : Client) :
  (forall (req : Request) (st st1 : State X) (body : string)
          (r : hubTokenResult.t (time_Time X)) (msg : string),
      Client_doRequest X c req [WithHubToken (token c)] st = (Ok body, st1) ->
      json_Unmarshal_hubTokenResult X body = Ok r ->
      uuid_Parse X (hubTokenResult.UUID r) = Fail msg ->
      (forall description scopes,
          validateScopes scopes = None ->
          http_NewRequest X "POST" (domain c +:+ TokensURL)
            (Some (json_Marshal_hubTokenRequest (hubTokenRequest.mk description false scopes)))
          = Ok req ->
          CreateToken X c description scopes st = ((None, Some (InvalidUUID msg)), st1))
      /\ (forall tokenUUID,
             http_NewRequest X "GET" (domain c +:+ TokenURL tokenUUID) None = Ok req ->
             GetToken X c tokenUUID st = ((None, Some (InvalidUUID msg)), st1))
      /\ (forall tokenUUID description isActive,
             http_NewRequest X "PATCH" (domain c +:+ TokenURL tokenUUID)
               (Some (json_Marshal_hubTokenRequest (hubTokenRequest.mk description isActive [])))
             = Ok req ->
             UpdateToken X c tokenUUID description isActive st
             = ((None, Some (InvalidUUID msg)), st1)))
  /\ (forall (u url : string) (k : nat) (st st1 st2 : State X) (req : Request)
             (body : string) (hr : hubTokenResponse.t (time_Time X))
             (r : hubTokenResult.t (time_Time X)) (msg : string),
         firstPageURL X c = Ok u ->
         k = 0 \/ fetchAllElements c = true ->
         fetch_chain X k c u st = Some (url, st1) ->
         http_NewRequest X "GET" url None = Ok req ->
         Client_doRequest X c req [WithHubToken (token c)] st1 = (Ok body, st2) ->
         json_Unmarshal_hubTokenResponse X body = Ok hr ->
         In r (hubTokenResponse.Results hr) ->
         uuid_Parse X (hubTokenResult.UUID r) = Fail msg ->
         exists msg',
           forall fuel, k <= fuel ->
                        GetTokens X fuel c st = Some (([], Some (InvalidUUID msg')), st2)).
Proof.
  split.
  - intros req st st1 body r msg Hdo Hdec Hparse.
    pose proof (requestToken_malformed_uuid X c req st st1 body r msg Hdo Hdec Hparse) as Htail.
    repeat split.
    + intros description scopes Hscopes Hreq. unfold CreateToken.
      now rewrite Hscopes, Hreq.
    + intros tokenUUID Hreq. unfold GetToken. now rewrite Hreq.
    + intros tokenUUID description isActive Hreq. unfold UpdateToken. now rewrite Hreq.
  - intros u url k st st1 st2 req body hr r msg Hu Hflag Hchain Hreq Hdo Hdec Hin Hparse.
    destruct (getTokensPage_malformed_uuid X c url st1 st2 req body hr r msg
                Hreq Hdo Hdec Hin Hparse) as [msg' Hpage].
    exists msg'. intros fuel Hfuel. unfold GetTokens. rewrite Hu.
    destruct k as [| k]; simpl in Hchain.
    + inversion Hchain; subst. now rewrite Hpage.
    + destruct Hflag as [| Hflag]; [discriminate |].
      destruct (getTokensPage X c u st) as [[[pt n] [e |]] st0]; [discriminate |].
      destruct (String.eqb_spec n "") as [| Hn]; [discriminate |].
      rewrite Hflag.
      apply (GetTokens_loop_chain_error X c k n url st0 st1 st2 [] "" (InvalidUUID msg'));
        auto.
Qed.

Lemma malformed_uuid_fails_the_call_witness :
  (CreateToken Mock.X_scripted (Mock.client false) "x" ["repo:public_read"]
               (Mock.start [Ok "badtoken"])
   = ((None, Some (InvalidUUID "invalid UUID length")),
      Build_State Mock.X_scripted []
        [{| Method := "POST"; URL := "https://hub.docker.com/v2/api_tokens";
            Body := Some (JObject [("token_label", JString "x");
                                   ("scopes", JArray [JString "repo:public_read"])]) |}]))
  /\ (exists msg',
         forall fuel, 1 <= fuel ->
           GetTokens Mock.X_scripted fuel (Mock.client true)
                     (Mock.start [Ok "page1"; Ok "badpage"])
           = Some (([], Some (InvalidUUID msg')),
                   Build_State Mock.X_scripted []
                     [get_request "https://hub.docker.com/v2/api_tokens?page=1&page_size=100";
                      get_request "page2url"])).
Proof.
  destruct (malformed_uuid_fails_the_call Mock.X_scripted (Mock.client false)) as [Hone _].
  destruct (malformed_uuid_fails_the_call Mock.X_scripted (Mock.client true)) as [_ Hall].
  split.
  - destruct (Hone {| Method := "POST"; URL := "https://hub.docker.com/v2/api_tokens";
                      Body := Some (JObject [("token_label", JString "x");
                                             ("scopes", JArray [JString "repo:public_read"])]) |}
                   (Mock.start [Ok "badtoken"])
                   (Build_State Mock.X_scripted []
                      [{| Method := "POST"; URL := "https://hub.docker.com/v2/api_tokens";
                          Body := Some (JObject [("token_label", JString "x");
                                                 ("scopes", JArray [JString "repo:public_read"])]) |}])
                   "badtoken" (Mock.result "not-a-uuid" "d") "invalid UUID length")
      as [Hcreate _]; [reflexivity | reflexivity | reflexivity |].
    apply Hcreate; [reflexivity | vm_compute; reflexivity].
  - apply (Hall "https://hub.docker.com/v2/api_tokens?page=1&page_size=100" "page2url" 1
                (Mock.start [Ok "page1"; Ok "badpage"])
                (Build_State Mock.X_scripted [Ok "badpage"]
                   [get_request "https://hub.docker.com/v2/api_tokens?page=1&page_size=100"])
                (Build_State Mock.X_scripted []
                   [get_request "https://hub.docker.com/v2/api_tokens?page=1&page_size=100";
                    get_request "page2url"])
                (get_request "page2url") "badpage"
                (hubTokenResponse.mk 2 "" ""
                   [Mock.result Mock.uuid1 "first"; Mock.result "not-a-uuid" "second"])
                (Mock.result "not-a-uuid" "second") "invalid UUID length");
      [vm_compute; reflexivity | right; reflexivity | vm_compute; reflexivity
       | reflexivity | reflexivity | reflexivity | simpl; auto | reflexivity].
Defined.

(** ** Request bodies *)

(** The members of a marshalled [hubTokenRequest], one by one. *)
Lemma json_Marshal_hubTokenRequest_fields (r : hubTokenRequest.t) :
  json_field "token_label" (json_Marshal_hubTokenRequest r)
  = (if String.eqb (hubTokenRequest.Description r) ""
     then None
     else Some (JString (hubTokenRequest.Description r)))
  /\ json_field "is_active" (json_Marshal_hubTokenRequest r)
     = (if hubTokenRequest.IsActive r then Some (JBool true) else None)
  /\ json_field "scopes" (json_Marshal_hubTokenRequest r)
     = (match hubTokenRequest.Scopes r with
        | [] => None
        | _ :: _ => Some (JArray (map JString (hubTokenRequest.Scopes r)))
        end).
Proof.
  destruct r as [d a s]. unfold json_Marshal_hubTokenRequest, json_field. simpl.
  destruct (String.eqb d ""), a, s; repeat split; reflexivity.
Qed.




(** What [UpdateToken] hands to the executor when the url parses: a PATCH of
    the token's url whose body has the description unless it is empty, has
    [is_active] only when it is [true], and has no scopes. *)
Lemma UpdateToken_request (X : Externals) (c : Client) (tokenUUID description : string)
      (isActive : bool) (st : State X) (u : url_URL X) :
  url_Parse X (domain c +:+ TokenURL tokenUUID) = Ok u ->
  exists body,
    sent (snd (UpdateToken X c tokenUUID description isActive st))
    = sent st ++ [{| Method := "PATCH"; URL := domain c +:+ TokenURL tokenUUID;
                     Body := Some body |}]
    /\ json_field "token_label" body
       = (if String.eqb description "" then None else Some (JString description))
    /\ json_field "is_active" body = (if isActive then Some (JBool true) else None)
    /\ json_field "scopes" body = None.
Proof.
  intros Hu.
  exists (json_Marshal_hubTokenRequest (hubTokenRequest.mk description isActive [])).
  split.
  - unfold UpdateToken, http_NewRequest. rewrite Hu. apply requestToken_sent.
  - apply (json_Marshal_hubTokenRequest_fields (hubTokenRequest.mk description isActive [])).
Qed.

(** C6. [UpdateToken] asked to deactivate a token sends a PATCH whose body
    is the description alone: the member [is_active] is absent, not
    [false]. With an empty description as well the body is the empty
    object. *)
Theorem UpdateToken_deactivation_body_lacks_is_active :
  sent (snd (UpdateToken Mock.X_scripted (Mock.client false) Mock.uuid1 "d" false
                         (Mock.start [Ok "token1"])))
  = [{| Method := "PATCH";
        URL := "https://hub.docker.com/v2/api_tokens/8208674e-d08a-426f-b6f4-e3aba7058459";
        Body := Some (JObject [("token_label", JString "d")]) |}]
  /\ json_field "is_active" (JObject [("token_label", JString "d")]) = None
  /\ sent (snd (UpdateToken Mock.X_scripted (Mock.client false) Mock.uuid1 "" false
                            (Mock.start [Ok "token1"])))
     = [{| Method := "PATCH";
           URL := "https://hub.docker.com/v2/api_tokens/8208674e-d08a-426f-b6f4-e3aba7058459";
           Body := Some (JObject []) |}].
Proof. repeat split; vm_compute; reflexivity. Qed.

(** C7. Once the DELETE request is built, [RevokeToken] hands it to the
    executor and returns the executor's error, or no error when the executor
    has none, whatever the body of the response is; it decodes nothing. *)
Theorem RevokeToken_returns_executor_error
        (X : Externals) (c : Client) (tokenUUID : string) (st : State X)
        (req : Request) (r : outcome string) (w : World X) :
  http_NewRequest X "DELETE" (domain c +:+ TokenURL tokenUUID) None = Ok req ->
  doRequest X c req [WithHubToken (token c)] (world st) = (r, w) ->
  RevokeToken X c tokenUUID st
  = (match r with
     | Fail msg => Some (TransportError msg)
     | Ok _ => None
     end,
     Build_State X w (sent st ++ [req])).
Proof.
  intros Hreq Hdo. unfold RevokeToken, Client_doRequest. rewrite Hreq, Hdo.
  now destruct r.
Qed.

Lemma RevokeToken_returns_executor_error_witness :
  RevokeToken Mock.X_scripted (Mock.client false) Mock.uuid1 (Mock.start [Fail "404 Not Found"])
  = (Some (TransportError "404 Not Found"),
     Build_State Mock.X_scripted []
       [{| Method := "DELETE";
           URL := "https://hub.docker.com/v2/api_tokens/8208674e-d08a-426f-b6f4-e3aba7058459";
           Body := None |}])
  /\ RevokeToken Mock.X_scripted (Mock.client false) Mock.uuid1 (Mock.start [Ok "not json"])
     = (None,
        Build_State Mock.X_scripted []
          [{| Method := "DELETE";
              URL := "https://hub.docker.com/v2/api_tokens/8208674e-d08a-426f-b6f4-e3aba7058459";
              Body := None |}]).
Proof.
  split.
  - apply (RevokeToken_returns_executor_error
             Mock.X_scripted (Mock.client false) Mock.uuid1 (Mock.start [Fail "404 Not Found"])
             _ (Fail "404 Not Found") []); reflexivity.
  - apply (RevokeToken_returns_executor_error
             Mock.X_scripted (Mock.client false) Mock.uuid1 (Mock.start [Ok "not json"])
             _ (Ok "not json") []); reflexivity.
Defined.

(** C8. The empty scopes list passes [validateScopes], and [CreateToken]
    with it, once the url parses, goes on to hand one request to the
    executor: a POST to the collection whose body has no [scopes] member. *)
Theorem CreateToken_empty_scopes_posts_without_scopes
        (X : Externals) (c : Client) (description : string) (st : State X)
        (u : url_URL X) :
  url_Parse X (domain c +:+ TokensURL) = Ok u ->
  validateScopes [] = None
  /\ exists body,
      CreateToken X c description [] st
      = requestToken X c {| Method := "POST"; URL := domain c +:+ TokensURL;
                            Body := Some body |} st
      /\ sent (snd (CreateToken X c description [] st))
         = sent st ++ [{| Method := "POST"; URL := domain c +:+ TokensURL;
                          Body := Some body |}]
      /\ json_field "scopes" body = None.
Proof.
  intros Hu. split; [reflexivity |].
  exists (json_Marshal_hubTokenRequest (hubTokenRequest.mk description false [])).
  assert (CreateToken X c description [] st
          = requestToken X c
              {| Method := "POST"; URL := domain c +:+ TokensURL;
                 Body := Some (json_Marshal_hubTokenRequest
                                 (hubTokenRequest.mk description false [])) |} st) as Hcall.
  { unfold CreateToken, http_NewRequest. cbn [validateScopes]. now rewrite Hu. }
  repeat split.
  - exact Hcall.
  - rewrite Hcall. apply requestToken_sent.
  - apply (json_Marshal_hubTokenRequest_fields (hubTokenRequest.mk description false [])).
Qed.

Lemma CreateToken_empty_scopes_posts_without_scopes_witness :
  validateScopes [] = None
  /\ exists body,
      CreateToken Mock.X_scripted (Mock.client false) "x" [] (Mock.start [Ok "token1"])
      = requestToken Mock.X_scripted (Mock.client false)
          {| Method := "POST"; URL := "https://hub.docker.com" +:+ TokensURL;
             Body := Some body |} (Mock.start [Ok "token1"])
      /\ sent (snd (CreateToken Mock.X_scripted (Mock.client false) "x" []
                                (Mock.start [Ok "token1"])))
         = [] ++ [{| Method := "POST"; URL := "https://hub.docker.com" +:+ TokensURL;
                     Body := Some body |}]
      /\ json_field "scopes" body = None.
Proof.
  apply (CreateToken_empty_scopes_posts_without_scopes
           Mock.X_scripted (Mock.client false) "x" (Mock.start [Ok "token1"])
           "https://hub.docker.com/v2/api_tokens").
  reflexivity.
Defined.

(** C9. Whatever string [tokenUUID] is, [GetToken], [UpdateToken] and
    [RevokeToken] put it as it is after "/v2/api_tokens/" in the url they
    build the request from, and once that url parses they hand the request
    to the executor. An [InvalidUUID] error of [GetToken] or
    [UpdateToken] is the error of [uuid.Parse] on the uuid of the decoded
    response, after the request was handed over; [RevokeToken] has no such
    error. *)
Theorem tokenUUID_is_not_validated
        (X : Externals) (c : Client) (tokenUUID : string) (st : State X) :
  (forall u : url_URL X,
      url_Parse X (domain c +:+ "/v2/api_tokens/" +:+ tokenUUID) = Ok u ->
      sent (snd (GetToken X c tokenUUID st))
      = sent st ++ [{| Method := "GET";
                       URL := domain c +:+ "/v2/api_tokens/" +:+ tokenUUID;
                       Body := None |}]
      /\ (forall description isActive,
             exists body,
               sent (snd (UpdateToken X c tokenUUID description isActive st))
               = sent st ++ [{| Method := "PATCH";
                                URL := domain c +:+ "/v2/api_tokens/" +:+ tokenUUID;
                                Body := Some body |}])
      /\ sent (snd (RevokeToken X c tokenUUID st))
         = sent st ++ [{| Method := "DELETE";
                          URL := domain c +:+ "/v2/api_tokens/" +:+ tokenUUID;
                          Body := None |}])
  /\ (forall res msg st1,
         GetToken X c tokenUUID st = ((res, Some (InvalidUUID msg)), st1) ->
         exists req body r,
           sent st1 = sent st ++ [req]
           /\ URL req = domain c +:+ "/v2/api_tokens/" +:+ tokenUUID
           /\ Client_doRequest X c req [WithHubToken (token c)] st = (Ok body, st1)
           /\ json_Unmarshal_hubTokenResult X body = Ok r
           /\ uuid_Parse X (hubTokenResult.UUID r) = Fail msg)
  /\ (forall description isActive res msg st1,
         UpdateToken X c tokenUUID description isActive st
         = ((res, Some (InvalidUUID msg)), st1) ->
         exists req body r,
           sent st1 = sent st ++ [req]
           /\ URL req = domain c +:+ "/v2/api_tokens/" +:+ tokenUUID
           /\ Client_doRequest X c req [WithHubToken (token c)] st = (Ok body, st1)
           /\ json_Unmarshal_hubTokenResult X body = Ok r
           /\ uuid_Parse X (hubTokenResult.UUID r) = Fail msg)
  /\ (forall msg, fst (RevokeToken X c tokenUUID st) <> Some (InvalidUUID msg)).
Proof.
  change (domain c +:+ "/v2/api_tokens/" +:+ tokenUUID) with (domain c +:+ TokenURL tokenUUID).
  split; [| split; [| split]].
  - intros u Hu. split; [| split].
    + unfold GetToken, http_NewRequest. rewrite Hu. apply requestToken_sent.
    + intros description isActive.
      destruct (UpdateToken_request X c tokenUUID description isActive st u Hu)
        as (body & Hsent & _).
      now exists body.
    + unfold RevokeToken, http_NewRequest, Client_doRequest. rewrite Hu.
      now destruct (doRequest X c _ _ (world st)) as [[body | msg] w].
  - intros res msg st1. unfold GetToken, http_NewRequest.
    destruct (url_Parse X (domain c +:+ TokenURL tokenUUID)) as [u | m]; [| discriminate].
    intros Hcall.
    destruct (requestToken_InvalidUUID_origin X c _ st st1 res msg Hcall)
      as (body & r & Hdo & Hdec & Hparse).
    exists (get_request (domain c +:+ TokenURL tokenUUID)), body, r.
    repeat split; try assumption.
    pose proof (requestToken_sent X c (get_request (domain c +:+ TokenURL tokenUUID)) st) as Hs.
    unfold get_request in Hs. now rewrite Hcall in Hs.
  - intros description isActive res msg st1. unfold UpdateToken, http_NewRequest.
    destruct (url_Parse X (domain c +:+ TokenURL tokenUUID)) as [u | m]; [| discriminate].
    intros Hcall.
    destruct (requestToken_InvalidUUID_origin X c _ st st1 res msg Hcall)
      as (body & r & Hdo & Hdec & Hparse).
    match type of Hcall with
    | requestToken X c ?req st = _ =>
        exists req, body, r; repeat split; try assumption;
        pose proof (requestToken_sent X c req st) as Hs; now rewrite Hcall in Hs
    end.
  - intros msg. unfold RevokeToken, http_NewRequest, Client_doRequest.
    destruct (url_Parse X (domain c +:+ TokenURL tokenUUID)) as [u | m]; [| discriminate].
    now destruct (doRequest X c _ _ (world st)) as [[body | m] w].
Qed.

Lemma tokenUUID_is_not_validated_witness :
  Mock.parse_uuid "not a uuid/../x" = Fail "invalid UUID length"
  /\ sent (snd (GetToken Mock.X_scripted (Mock.client false) "not a uuid/../x"
                         (Mock.start [Ok "token1"])))
     = [] ++ [{| Method := "GET";
                 URL := "https://hub.docker.com" +:+ "/v2/api_tokens/" +:+ "not a uuid/../x";
                 Body := None |}]
  /\ GetToken Mock.X_scripted (Mock.client false) "not a uuid/../x" (Mock.start [Ok "token1"])
     = ((Some (Mock.token Mock.uuid1 "d"), None),
        Build_State Mock.X_scripted []
          [get_request "https://hub.docker.com/v2/api_tokens/not a uuid/../x"]).
Proof.
  destruct (tokenUUID_is_not_validated
              Mock.X_scripted (Mock.client false) "not a uuid/../x" (Mock.start [Ok "token1"]))
    as (Hsent & _).
  split; [reflexivity |]. split.
  - apply (Hsent "https://hub.docker.com/v2/api_tokens/not a uuid/../x"). reflexivity.
  - vm_compute. reflexivity.
Defined.

(** * Further properties of the operations *)

(** ** Scope validation, continued *)

(** X1. Validating a concatenation is validating the first list and, when
    it passes, the second: the error of the first list wins. *)
Theorem validateScopes_app (a b : list string) :
  validateScopes (a ++ b)
  = match validateScopes a with
    | Some err => Some err
    | None => validateScopes b
    end.
Proof.
  induction a as [| s rest IH]; [reflexivity |].
  simpl. destruct (decide (s ∈ validScopes)); [exact IH | reflexivity].
Qed.

(** An error of [validateScopes] names a member outside the allow-list. *)
Lemma validateScopes_sound_and_complete_aux (scopes : list string) (err : error) :
  validateScopes scopes = Some err ->
  exists s, err = InvalidScope s /\ In s scopes /\ s <> "repo:public_read".
Proof.
  induction scopes as [| s rest IH]; simpl; [discriminate |].
  destruct (decide (s ∈ validScopes)) as [Hin | Hout].
  - intros H. destruct (IH H) as (x & -> & Hx & Hne). exists x. auto.
  - intros H. inversion H; subst. exists s. repeat split; auto.
    intros ->. now apply Hout, validScopes_spec.
Qed.

(** X2. [validateScopes] passes exactly the lists made of
    "repo:public_read" only, and an error it returns is [InvalidScope] of a
    member of the list that is not that string. *)
Theorem validateScopes_sound_and_complete (scopes : list string) :
  (validateScopes scopes = None <-> Forall (fun s => s = "repo:public_read") scopes)
  /\ (forall err,
         validateScopes scopes = Some err ->
         exists s, err = InvalidScope s /\ In s scopes /\ s <> "repo:public_read").
Proof.
  induction scopes as [| s rest [[IHn IHf] IHe]]; simpl.
  - repeat split; [constructor | discriminate].
  - destruct (decide (s ∈ validScopes)) as [Hin | Hout].
    + apply validScopes_spec in Hin. repeat split.
      * intros H. constructor; auto.
      * intros H. inversion H; subst. auto.
      * intros err Herr. destruct (IHe err Herr) as (x & -> & Hx & Hne).
        exists x. auto.
    + repeat split.
      * discriminate.
      * intros H. inversion H; subst. exfalso. now apply Hout, validScopes_spec.
      * intros err Herr. inversion Herr; subst. exists s. repeat split; auto.
        intros ->. now apply Hout, validScopes_spec.
Qed.

Lemma validateScopes_sound_and_complete_witness :
  exists s, InvalidScope "repo:write" = InvalidScope s
            /\ In s ["repo:public_read"; "repo:write"]
            /\ s <> "repo:public_read".
Proof.
  destruct (validateScopes_sound_and_complete ["repo:public_read"; "repo:write"]) as [_ Herr].
  apply Herr. reflexivity.
Defined.

(** ** Converting a page *)

Section Conversion.
Context (X : Externals).

Lemma convertToken_parsed (r : hubTokenResult.t (time_Time X)) (u : uuid_UUID X) :
  uuid_Parse X (hubTokenResult.UUID r) = Ok u ->
  snd (convertToken X r) = None
  /\ Token.UUID (fst (convertToken X r)) = u
  /\ Token.Description (fst (convertToken X r)) = hubTokenResult.TokenLabel r
  /\ Token.Token (fst (convertToken X r)) = hubTokenResult.Token r.
Proof. intros H. unfold convertToken. rewrite H. repeat split. Qed.

(** When every uuid parses the loop appends the converted entries in order. *)
Lemma convertResults_parsed (results : list (hubTokenResult.t (time_Time X))) :
  forall tokens : Tokens X,
    Forall (fun r => exists u, uuid_Parse X (hubTokenResult.UUID r) = Ok u) results ->
    convertResults X results tokens
    = (tokens ++ map (fun r => fst (convertToken X r)) results, None).
Proof.
  induction results as [| r rest IH]; intros tokens Hall; simpl.
  - now rewrite app_nil_r.
  - inversion Hall as [| ? ? [u Hu] Hrest]; subst.
    destruct (convertToken_parsed r u Hu) as (Herr & _).
    destruct (convertToken X r) as [tok err]. simpl in Herr. subst err.
    rewrite IH by assumption. simpl. now rewrite <- app_assoc.
Qed.

(** An error of the loop comes with no tokens, and is the parser's error on
    one of the entries. *)
Lemma convertResults_error (results : list (hubTokenResult.t (time_Time X))) :
  forall (tokens out : Tokens X) (err : error),
    convertResults X results tokens = (out, Some err) ->
    out = []
    /\ exists r msg,
        In r results
        /\ uuid_Parse X (hubTokenResult.UUID r) = Fail msg
        /\ err = InvalidUUID msg.
Proof.
  induction results as [| r rest IH]; intros tokens out err; simpl; [discriminate |].
  unfold convertToken at 1.
  destruct (uuid_Parse X (hubTokenResult.UUID r)) as [u | msg] eqn:Hr.
  - intros H. destruct (IH _ _ _ H) as (-> & r' & msg & Hin & Hparse & ->).
    split; [reflexivity |]. exists r', msg. auto.
  - intros H. inversion H; subst. split; [reflexivity |]. exists r, msg. auto.
Qed.

End Conversion.

(** X3. When the uuid of every entry of a page parses, the conversion loop
    of [getTokensPage] gives no error and one token per entry, in the order
    of the entries, each with the entry's label as description and the
    entry's secret. *)
Theorem convertResults_keeps_order
        (X : Externals) (results : list (hubTokenResult.t (time_Time X))) :
  Forall (fun r => exists u, uuid_Parse X (hubTokenResult.UUID r) = Ok u) results ->
  exists tokens,
    convertResults X results [] = (tokens, None)
    /\ length tokens = length results
    /\ map Token.Description tokens = map hubTokenResult.TokenLabel results
    /\ map Token.Token tokens = map hubTokenResult.Token results
    /\ map (fun t => Ok (Token.UUID t)) tokens
       = map (fun r => uuid_Parse X (hubTokenResult.UUID r)) results.
Proof.
  intros Hall. exists (map (fun r => fst (convertToken X r)) results).
  split; [now rewrite convertResults_parsed |].
  split; [now rewrite length_map |].
  rewrite !map_map.
  repeat split; apply map_ext_in; intros r Hin;
    (destruct (proj1 (List.Forall_forall _ _) Hall r Hin) as [u Hu];
     destruct (convertToken_parsed X r u Hu) as (_ & Hid & Hd & Ht); congruence).
Qed.

Lemma convertResults_keeps_order_witness :
  exists tokens,
    convertResults Mock.X_scripted
      [Mock.result Mock.uuid1 "first"; Mock.result Mock.uuid2 "second"] []
    = (tokens, None)
    /\ length tokens = 2
    /\ map Token.Description tokens = ["first"; "second"]
    /\ map Token.Token tokens = [""; ""]
    /\ map (fun t => Ok (Token.UUID t)) tokens = [Ok Mock.uuid1; Ok Mock.uuid2].
Proof.
  apply (convertResults_keeps_order Mock.X_scripted
           [Mock.result Mock.uuid1 "first"; Mock.result Mock.uuid2 "second"]).
  repeat constructor; eexists; reflexivity.
Defined.

(** X4. The conversion loop stops at the first entry whose uuid does not
    parse: the error is the parser's error on that entry, whatever follows
    it, and the tokens converted before it are dropped. *)
Theorem convertResults_first_malformed
        (X : Externals) (pre post : list (hubTokenResult.t (time_Time X)))
        (r : hubTokenResult.t (time_Time X)) (msg : string) (tokens : Tokens X) :
  Forall (fun r => exists u, uuid_Parse X (hubTokenResult.UUID r) = Ok u) pre ->
  uuid_Parse X (hubTokenResult.UUID r) = Fail msg ->
  convertResults X (pre ++ r :: post) tokens = ([], Some (InvalidUUID msg)).
Proof.
  intros Hpre Hr. revert tokens.
  induction Hpre as [| r0 rest [u Hu] _ IH]; intros tokens; simpl.
  - unfold convertToken. now rewrite Hr.
  - unfold convertToken at 1. rewrite Hu. apply IH.
Qed.

Lemma convertResults_first_malformed_witness :
  convertResults Mock.X_scripted
    ([Mock.result Mock.uuid1 "first"]
       ++ Mock.result "not-a-uuid" "second" :: [Mock.result "short" "third"]) []
  = ([], Some (InvalidUUID "invalid UUID length")).
Proof.
  apply (convertResults_first_malformed Mock.X_scripted);
    [repeat constructor; eexists; reflexivity | reflexivity].
Defined.

(** ** The listing, continued *)

Section ListingShape.
Context (X : Externals).

(** Every way a page fetch can end: an error comes with no tokens and no
    link and is no [InvalidScope]; the state is untouched or one GET of the
    url longer. *)
Lemma getTokensPage_shape (c : Client) (url : string) (st st1 : State X)
      (toks : Tokens X) (next : string) (err : option error) :
  getTokensPage X c url st = ((toks, next, err), st1) ->
  (err <> None -> toks = [] /\ next = "")
  /\ (forall s, err <> Some (InvalidScope s))
  /\ (st1 = st \/ sent st1 = sent st ++ [get_request url]).
Proof.
  unfold getTokensPage, http_NewRequest, Client_doRequest.
  destruct (url_Parse X url) as [u | m].
  - destruct (doRequest X c _ _ (world st)) as [[body | m] w].
    + destruct (json_Unmarshal_hubTokenResponse X body) as [hr | m].
      * destruct (convertResults X (hubTokenResponse.Results hr) []) as [out [e |]] eqn:Hconv;
          intros H; inversion H; subst; repeat split; auto; try congruence.
        destruct (convertResults_error X _ _ _ _ Hconv) as (_ & r & msg & _ & _ & ->).
        discriminate.
      * intros H; inversion H; subst; repeat split; auto; discriminate.
    + intros H; inversion H; subst; repeat split; auto; discriminate.
  - intros H; inversion H; subst; repeat split; auto; discriminate.
Qed.

(** The same for the loop: at most one GET for each unit of fuel. *)
Lemma GetTokens_loop_shape (c : Client) (fuel : nat) :
  forall (tokens : Tokens X) (next : string) (st st' : State X)
         (out : Tokens X) (err : option error),
    GetTokens_loop X fuel c tokens next st = Some ((out, err), st') ->
    (err <> None -> out = [])
    /\ (forall s, err <> Some (InvalidScope s))
    /\ exists urls,
        sent st' = sent st ++ map get_request urls /\ length urls <= fuel.
Proof.
  induction fuel as [| fuel IH]; intros tokens next st st' out err Hloop.
  - simpl in Hloop. destruct (String.eqb next ""); [| discriminate].
    inversion Hloop; subst. repeat split; try congruence.
    exists []. simpl. now rewrite app_nil_r.
  - destruct (String.eqb_spec next "") as [-> | Hne].
    + rewrite GetTokens_loop_empty in Hloop. inversion Hloop; subst.
      repeat split; try congruence. exists []. simpl. rewrite app_nil_r. split; [auto | lia].
    + rewrite GetTokens_loop_step in Hloop by assumption.
      destruct (getTokensPage X c next st) as [[[pt n] e] st0] eqn:Hpage.
      destruct (getTokensPage_shape c next st st0 pt n e Hpage) as (_ & Hscope & Hsent).
      assert (exists l, sent st0 = sent st ++ map get_request l /\ length l <= 1) as (l & Hl & Hlen).
      { destruct Hsent as [-> | Hs].
        - exists []. simpl. rewrite app_nil_r. split; [auto | lia].
        - exists [next]. split; [exact Hs | simpl; lia]. }
      destruct e as [e |].
      * inversion Hloop; subst. repeat split; auto.
        exists l. split; [exact Hl | lia].
      * destruct (IH _ _ _ _ _ _ Hloop) as (Hout & Hsc & urls & Hurls & Hulen).
        repeat split; auto. exists (l ++ urls).
        rewrite Hurls, Hl, map_app, app_assoc. split; [reflexivity |].
        rewrite length_app. lia.
Qed.

End ListingShape.

(** X5. Whenever [GetTokens] returns an error it returns no tokens with it,
    and the error is never [InvalidScope]; the same holds of a page fetch,
    whose link is then empty too. *)
Theorem GetTokens_error_has_no_tokens (X : Externals) (c : Client) (st : State X) :
  (forall fuel toks err st',
      GetTokens X fuel c st = Some ((toks, Some err), st') ->
      toks = [] /\ forall s, err <> InvalidScope s)
  /\ (forall url toks next err st',
         getTokensPage X c url st = ((toks, next, Some err), st') ->
         toks = [] /\ next = "" /\ forall s, err <> InvalidScope s).
Proof.
  split.
  - intros fuel toks err st'. unfold GetTokens.
    destruct (firstPageURL X c) as [u | m].
    + destruct (getTokensPage X c u st) as [[[pt n] e] st0] eqn:Hpage.
      destruct (getTokensPage_shape X c u st st0 pt n e Hpage) as (_ & Hscope & _).
      destruct e as [e |].
      * intros H. inversion H; subst. split; [reflexivity |].
        intros s ->. now apply (Hscope s).
      * destruct (fetchAllElements c); [| discriminate].
        intros Hloop.
        destruct (GetTokens_loop_shape X c fuel _ _ _ _ _ _ Hloop) as (Hout & Hsc & _).
        split; [apply Hout; discriminate |]. intros s ->. now apply (Hsc s).
    + intros H. inversion H; subst. split; [reflexivity | discriminate].
  - intros url toks next err st' Hpage.
    destruct (getTokensPage_shape X c url st st' toks next _ Hpage) as (Hshape & Hscope & _).
    destruct Hshape as [-> ->]; [discriminate |].
    repeat split. intros s ->. now apply (Hscope s).
Qed.

Lemma GetTokens_error_has_no_tokens_witness :
  (@nil (Token.t string Z)) = []
  /\ forall s, InvalidUUID "invalid UUID length" <> InvalidScope s.
Proof.
  destruct (GetTokens_error_has_no_tokens
              Mock.X_scripted (Mock.client true) (Mock.start [Ok "page1"; Ok "badpage"]))
    as [Hall _].
  apply (Hall 3 [] (InvalidUUID "invalid UUID length")
              (Build_State Mock.X_scripted []
                 [get_request "https://hub.docker.com/v2/api_tokens?page=1&page_size=100";
                  get_request "page2url"])).
  vm_compute. reflexivity.
Defined.

(** X6. Whatever [GetTokens] returns, all it has handed to the executor are
    GET requests without a body, appended to the log in order: at most one
    with the fetch-all flag off, at most one more than the loop's
    iterations with it on; the first of them, if any, asks for the first
    page. *)
Theorem GetTokens_sends_only_gets
        (X : Externals) (c : Client) (st st' : State X) (fuel : nat)
        (res : Tokens X * option error) :
  GetTokens X fuel c st = Some (res, st') ->
  exists urls,
    sent st' = sent st ++ map get_request urls
    /\ length urls <= S fuel
    /\ (fetchAllElements c = false -> length urls <= 1)
    /\ (forall u, hd_error urls = Some u -> firstPageURL X c = Ok u).
Proof.
  unfold GetTokens. destruct (firstPageURL X c) as [u | m].
  - destruct (getTokensPage X c u st) as [[[pt n] e] st0] eqn:Hpage.
    destruct (getTokensPage_shape X c u st st0 pt n e Hpage) as (_ & _ & Hsent).
    assert (exists l, sent st0 = sent st ++ map get_request l /\ length l <= 1
                      /\ forall v, hd_error l = Some v -> v = u)
      as (l & Hl & Hlen & Hhd).
    { destruct Hsent as [-> | Hs].
      - exists []. simpl. rewrite app_nil_r. repeat split; [lia | discriminate].
      - exists [u]. repeat split; [exact Hs | simpl; lia |].
        simpl. intros v Hv. now inversion Hv. }
    destruct e as [e |].
    + intros H. inversion H; subst. exists l. repeat split; auto; try lia.
      intros v Hv. now rewrite (Hhd v Hv).
    + destruct (fetchAllElements c) eqn:Hflag.
      * intros Hloop. destruct res as [out err].
        destruct (GetTokens_loop_shape X c fuel _ _ _ _ _ _ Hloop) as (_ & _ & urls & Hurls & Hulen).
        assert (sent st0 = sent st ++ [get_request u]) as Hone.
        { destruct Hsent as [-> | Hs]; [| exact Hs].
          exfalso. unfold getTokensPage, http_NewRequest, Client_doRequest in Hpage.
          destruct (url_Parse X u); [| discriminate].
          destruct (doRequest X c _ _ (world st)) as [[body | m] w]; [| discriminate].
          destruct (json_Unmarshal_hubTokenResponse X body); [| discriminate].
          destruct (convertResults X _ []) as [o [e |]]; [discriminate |].
          inversion Hpage as [[Ht Hn Hst]].
          apply (f_equal (fun s => length (sent s))) in Hst. simpl in Hst.
          rewrite length_app in Hst. simpl in Hst. lia. }
        exists (u :: urls). simpl. rewrite Hurls, Hone, <- app_assoc. simpl.
        repeat split; [lia | discriminate |]. intros v Hv. now inversion Hv.
      * intros H. inversion H; subst. exists l. repeat split; auto; try lia.
        intros v Hv. now rewrite (Hhd v Hv).
  - intros H. inversion H; subst. exists []. simpl. rewrite app_nil_r.
    repeat split; try lia. discriminate.
Qed.

Lemma GetTokens_sends_only_gets_witness :
  exists urls,
    sent (Build_State Mock.X_scripted []
            [get_request "https://hub.docker.com/v2/api_tokens?page=1&page_size=100";
             get_request "page2url"])
    = sent (Mock.start [Ok "page1"; Fail "503"]) ++ map get_request urls
    /\ length urls <= 2
    /\ (fetchAllElements (Mock.client true) = false -> length urls <= 1)
    /\ (forall u, hd_error urls = Some u -> firstPageURL Mock.X_scripted (Mock.client true) = Ok u).
Proof.
  apply (GetTokens_sends_only_gets
           Mock.X_scripted (Mock.client true) (Mock.start [Ok "page1"; Fail "503"]) _ 1
           ([], Some (TransportError "503"))).
  vm_compute. reflexivity.
Defined.

(** X7. When the first page succeeds with an empty [next] link,
    [GetTokens] returns that page's tokens in the state that one fetch left,
    with the fetch-all flag on or off and for every amount of fuel. *)
Theorem GetTokens_single_page
        (X : Externals) (c : Client) (st st1 : State X) (u : string) (tokens : Tokens X) :
  firstPageURL X c = Ok u ->
  getTokensPage X c u st = ((tokens, "", None), st1) ->
  forall fuel, GetTokens X fuel c st = Some ((tokens, None), st1).
Proof.
  intros Hu Hpage fuel. unfold GetTokens. rewrite Hu, Hpage.
  destruct (fetchAllElements c); [apply GetTokens_loop_empty | reflexivity].
Qed.

Lemma GetTokens_single_page_witness :
  GetTokens Mock.X_scripted 0 (Mock.client true) (Mock.start [Ok "page2"; Ok "page1"])
  = Some (([Mock.token Mock.uuid2 "second"], None),
          Build_State Mock.X_scripted [Ok "page1"]
            [get_request "https://hub.docker.com/v2/api_tokens?page=1&page_size=100"])
  /\ GetTokens Mock.X_scripted 7 (Mock.client false) (Mock.start [Ok "page2"; Ok "page1"])
     = Some (([Mock.token Mock.uuid2 "second"], None),
             Build_State Mock.X_scripted [Ok "page1"]
               [get_request "https://hub.docker.com/v2/api_tokens?page=1&page_size=100"]).
Proof.
  split.
  - apply (GetTokens_single_page
             Mock.X_scripted (Mock.client true) (Mock.start [Ok "page2"; Ok "page1"]) _
             "https://hub.docker.com/v2/api_tokens?page=1&page_size=100");
      vm_compute; reflexivity.
  - apply (GetTokens_single_page
             Mock.X_scripted (Mock.client false) (Mock.start [Ok "page2"; Ok "page1"]) _
             "https://hub.docker.com/v2/api_tokens?page=1&page_size=100");
      vm_compute; reflexivity.
Defined.

(** ** Single-token operations, continued *)

Section SingleTokenShape.
Context (X : Externals).

(** Every way the shared tail can end: the state is the one the executor
    left, and the result is a token, or an error that is none of
    [InvalidScope] and [RequestError]. *)
Lemma requestToken_shape (c : Client) (req : Request) (st st1 : State X)
      (tok : option (Token.t (uuid_UUID X) (time_Time X))) (err : option error) :
  requestToken X c req st = ((tok, err), st1) ->
  st1 = snd (Client_doRequest X c req [WithHubToken (token c)] st)
  /\ ((exists t, tok = Some t /\ err = None)
      \/ (tok = None
          /\ exists e, err = Some e
                       /\ (forall s, e <> InvalidScope s)
                       /\ (forall m, e <> RequestError m))).
Proof.
  unfold requestToken, convertToken.
  destruct (Client_doRequest X c req _ st) as [[body | m] st0].
  - destruct (json_Unmarshal_hubTokenResult X body) as [r | m].
    + destruct (uuid_Parse X (hubTokenResult.UUID r)) as [u | m];
        intros H; inversion H; subst; split; auto.
      * left. eauto.
      * right. split; [reflexivity |]. eexists. repeat split; discriminate.
    + intros H; inversion H; subst; split; auto.
      right. split; [reflexivity |]. eexists. repeat split; discriminate.
  - intros H; inversion H; subst; split; auto.
    right. split; [reflexivity |]. eexists. repeat split; discriminate.
Qed.

Lemma Client_doRequest_sent (c : Client) (req : Request) (ops : list RequestOp)
      (st : State X) :
  sent (snd (Client_doRequest X c req ops st)) = sent st ++ [req].
Proof.
  unfold Client_doRequest. now destruct (doRequest X c req ops (world st)).
Qed.

End SingleTokenShape.

(** X8. When [url.Parse] refuses the url of an operation, the operation
    returns its error and the state is untouched: nothing is handed to the
    executor. This holds of [GetToken], [UpdateToken] and [RevokeToken] for
    the token's url, of [CreateToken] (after the scopes passed) and
    [GetTokens] for the collection's url, and of a page fetch for any
    link. *)
Theorem unparseable_url_sends_nothing (X : Externals) (c : Client) (st : State X) :
  (forall tokenUUID msg,
      url_Parse X (domain c +:+ TokenURL tokenUUID) = Fail msg ->
      GetToken X c tokenUUID st = ((None, Some (RequestError msg)), st)
      /\ (forall description isActive,
             UpdateToken X c tokenUUID description isActive st
             = ((None, Some (RequestError msg)), st))
      /\ RevokeToken X c tokenUUID st = (Some (RequestError msg), st))
  /\ (forall msg,
         url_Parse X (domain c +:+ TokensURL) = Fail msg ->
         (forall description scopes,
             validateScopes scopes = None ->
             CreateToken X c description scopes st = ((None, Some (RequestError msg)), st))
         /\ (forall fuel, GetTokens X fuel c st = Some (([], Some (RequestError msg)), st)))
  /\ (forall url msg,
         url_Parse X url = Fail msg ->
         getTokensPage X c url st = (([], "", Some (RequestError msg)), st)).
Proof.
  repeat split.
  - unfold GetToken, http_NewRequest. now rewrite H.
  - intros description isActive. unfold UpdateToken, http_NewRequest. now rewrite H.
  - unfold RevokeToken, http_NewRequest. now rewrite H.
  - intros description scopes Hscopes. unfold CreateToken, http_NewRequest.
    now rewrite Hscopes, H.
  - intros fuel. unfold GetTokens, firstPageURL. now rewrite H.
  - intros url msg Hurl. unfold getTokensPage, http_NewRequest. now rewrite Hurl.
Qed.

Lemma unparseable_url_sends_nothing_witness :
  GetToken Mock.X_scripted (Mock.client false) (String (Ascii.ascii_of_nat 10) "x")
           (Mock.start [Ok "token1"])
  = ((None, Some (RequestError "net/url: invalid control character in URL")),
     Mock.start [Ok "token1"])
  /\ RevokeToken Mock.X_scripted (Mock.client false) (String (Ascii.ascii_of_nat 10) "x")
                 (Mock.start [Ok "token1"])
     = (Some (RequestError "net/url: invalid control character in URL"),
        Mock.start [Ok "token1"]).
Proof.
  destruct (unparseable_url_sends_nothing
              Mock.X_scripted (Mock.client false) (Mock.start [Ok "token1"]))
    as (Htoken & _).
  destruct (Htoken (String (Ascii.ascii_of_nat 10) "x") "net/url: invalid control character in URL")
    as (Hget & _ & Hrevoke); [reflexivity |].
  split; assumption.
Defined.

(** X9. [CreateToken], [GetToken] and [UpdateToken] return a token or an
    error, never both and never neither. *)
Theorem token_xor_error (X : Externals) (c : Client) (st st1 : State X)
        (tok : option (Token.t (uuid_UUID X) (time_Time X))) (err : option error) :
  (exists description scopes, CreateToken X c description scopes st = ((tok, err), st1))
  \/ (exists tokenUUID, GetToken X c tokenUUID st = ((tok, err), st1))
  \/ (exists tokenUUID description isActive,
         UpdateToken X c tokenUUID description isActive st = ((tok, err), st1)) ->
  (exists t, tok = Some t /\ err = None) \/ (exists e, tok = None /\ err = Some e).
Proof.
  assert (forall req, requestToken X c req st = ((tok, err), st1) ->
                      (exists t, tok = Some t /\ err = None)
                      \/ (exists e, tok = None /\ err = Some e)) as Htail.
  { intros req H. destruct (requestToken_shape X c req st st1 tok err H) as [_ [Hok | Herr]].
    - now left.
    - right. destruct Herr as (-> & e & -> & _). eauto. }
  intros [(description & scopes & H) | [(tokenUUID & H) | (tokenUUID & description & isActive & H)]].
  - unfold CreateToken in H. destruct (validateScopes scopes) as [e |].
    + inversion H; subst. right. eauto.
    + destruct (http_NewRequest X "POST" _ _) as [req | m]; [eauto |].
      inversion H; subst. right. eauto.
  - unfold GetToken in H.
    destruct (http_NewRequest X "GET" _ _) as [req | m]; [eauto |].
    inversion H; subst. right. eauto.
  - unfold UpdateToken in H.
    destruct (http_NewRequest X "PATCH" _ _) as [req | m]; [eauto |].
    inversion H; subst. right. eauto.
Qed.

Lemma token_xor_error_witness :
  (exists t, Some (Mock.token Mock.uuid1 "d") = Some t /\ @None error = None)
  \/ (exists e, Some (Mock.token Mock.uuid1 "d") = None /\ @None error = Some e).
Proof.
  apply (token_xor_error Mock.X_scripted (Mock.client false) (Mock.start [Ok "token1"])
           (Build_State Mock.X_scripted []
              [get_request "https://hub.docker.com/v2/api_tokens/8208674e-d08a-426f-b6f4-e3aba7058459"])).
  right. left. exists Mock.uuid1. vm_compute. reflexivity.
Defined.

(** X10. Each single-token operation hands at most one request to the
    executor, with the method of the operation, and when it returns no
    error it has handed over exactly one. *)
Theorem at_most_one_request (X : Externals) (c : Client) (st : State X) :
  (forall description scopes,
      let r := CreateToken X c description scopes st in
      (snd r = st /\ snd (fst r) <> None)
      \/ exists req, sent (snd r) = sent st ++ [req] /\ Method req = "POST")
  /\ (forall tokenUUID,
         let r := GetToken X c tokenUUID st in
         (snd r = st /\ snd (fst r) <> None)
         \/ exists req, sent (snd r) = sent st ++ [req] /\ Method req = "GET")
  /\ (forall tokenUUID description isActive,
         let r := UpdateToken X c tokenUUID description isActive st in
         (snd r = st /\ snd (fst r) <> None)
         \/ exists req, sent (snd r) = sent st ++ [req] /\ Method req = "PATCH")
  /\ (forall tokenUUID,
         let r := RevokeToken X c tokenUUID st in
         (snd r = st /\ fst r <> None)
         \/ exists req, sent (snd r) = sent st ++ [req] /\ Method req = "DELETE").
Proof.
  repeat split.
  - intros description scopes. unfold CreateToken, http_NewRequest.
    destruct (validateScopes scopes) as [e |]; [left; split; [reflexivity | discriminate] |].
    destruct (url_Parse X _) as [u | m]; [| left; split; [reflexivity | discriminate]].
    right. eexists. split; [apply requestToken_sent | reflexivity].
  - intros tokenUUID. unfold GetToken, http_NewRequest.
    destruct (url_Parse X _) as [u | m]; [| left; split; [reflexivity | discriminate]].
    right. eexists. split; [apply requestToken_sent | reflexivity].
  - intros tokenUUID description isActive. unfold UpdateToken, http_NewRequest.
    destruct (url_Parse X _) as [u | m]; [| left; split; [reflexivity | discriminate]].
    right. eexists. split; [apply requestToken_sent | reflexivity].
  - intros tokenUUID. unfold RevokeToken, http_NewRequest.
    destruct (url_Parse X _) as [u | m]; [| left; split; [reflexivity | discriminate]].
    right.
    exists {| Method := "DELETE"; URL := domain c +:+ TokenURL tokenUUID; Body := None |}.
    split; [| reflexivity].
    pose proof (Client_doRequest_sent X c
                  {| Method := "DELETE"; URL := domain c +:+ TokenURL tokenUUID; Body := None |}
                  [WithHubToken (token c)] st) as Hs.
    now destruct (Client_doRequest X c _ _ st) as [[body | m] st0].
Qed.

(** X11. When the executor answers with a body that decodes to a token
    object whose uuid parses, [CreateToken], [GetToken] and [UpdateToken]
    return no error and the token made of the parsed uuid and the fields of
    that object, the secret [Token] among them, in the state the executor
    left. *)
Theorem single_token_success
        (X : Externals) (c : Client) (req : Request) (st st1 : State X) (body : string)
        (r : hubTokenResult.t (time_Time X)) (u : uuid_UUID X) :
  Client_doRequest X c req [WithHubToken (token c)] st = (Ok body, st1) ->
  json_Unmarshal_hubTokenResult X body = Ok r ->
  uuid_Parse X (hubTokenResult.UUID r) = Ok u ->
  let converted :=
    Token.mk u (hubTokenResult.ClientID r) (hubTokenResult.CreatorIP r)
             (hubTokenResult.CreatorUA r) (hubTokenResult.CreatedAt r)
             (hubTokenResult.LastUsed r) (hubTokenResult.GeneratedBy r)
             (hubTokenResult.IsActive r) (hubTokenResult.Token r)
             (hubTokenResult.TokenLabel r) (hubTokenResult.Scopes r) in
  (forall description scopes,
      validateScopes scopes = None ->
      http_NewRequest X "POST" (domain c +:+ TokensURL)
        (Some (json_Marshal_hubTokenRequest (hubTokenRequest.mk description false scopes)))
      = Ok req ->
      CreateToken X c description scopes st = ((Some converted, None), st1))
  /\ (forall tokenUUID,
         http_NewRequest X "GET" (domain c +:+ TokenURL tokenUUID) None = Ok req ->
         GetToken X c tokenUUID st = ((Some converted, None), st1))
  /\ (forall tokenUUID description isActive,
         http_NewRequest X "PATCH" (domain c +:+ TokenURL tokenUUID)
           (Some (json_Marshal_hubTokenRequest (hubTokenRequest.mk description isActive [])))
         = Ok req ->
         UpdateToken X c tokenUUID description isActive st = ((Some converted, None), st1)).
Proof.
  intros Hdo Hdec Hparse converted.
  assert (requestToken X c req st = ((Some converted, None), st1)) as Htail.
  { unfold requestToken, convertToken. now rewrite Hdo, Hdec, Hparse. }
  repeat split.
  - intros description scopes Hscopes Hreq. unfold CreateToken. now rewrite Hscopes, Hreq.
  - intros tokenUUID Hreq. unfold GetToken. now rewrite Hreq.
  - intros tokenUUID description isActive Hreq. unfold UpdateToken. now rewrite Hreq.
Qed.

Lemma single_token_success_witness :
  UpdateToken Mock.X_scripted (Mock.client false) Mock.uuid1 "d" true
              (Mock.start [Ok "token1"; Ok "token1"])
  = ((Some (Mock.token Mock.uuid1 "d"), None),
     Build_State Mock.X_scripted [Ok "token1"]
       [{| Method := "PATCH";
           URL := "https://hub.docker.com/v2/api_tokens/8208674e-d08a-426f-b6f4-e3aba7058459";
           Body := Some (JObject [("token_label", JString "d"); ("is_active", JBool true)]) |}]).
Proof.
  destruct (single_token_success
              Mock.X_scripted (Mock.client false)
              {| Method := "PATCH";
                 URL := "https://hub.docker.com/v2/api_tokens/8208674e-d08a-426f-b6f4-e3aba7058459";
                 Body := Some (JObject [("token_label", JString "d");
                                        ("is_active", JBool true)]) |}
              (Mock.start [Ok "token1"; Ok "token1"])
              (Build_State Mock.X_scripted [Ok "token1"]
                 [{| Method := "PATCH";
                     URL := "https://hub.docker.com/v2/api_tokens/8208674e-d08a-426f-b6f4-e3aba7058459";
                     Body := Some (JObject [("token_label", JString "d");
                                            ("is_active", JBool true)]) |}])
              "token1" (Mock.result Mock.uuid1 "d") Mock.uuid1)
    as (_ & _ & Hupdate); [reflexivity | reflexivity | reflexivity |].
  apply Hupdate. vm_compute. reflexivity.
Defined.

(** X12. An error of the executor comes back from [CreateToken],
    [GetToken] and [UpdateToken] as it is, with no token, and so does an
    error of [json.Unmarshal] on the body of a response. *)
Theorem single_token_error_propagates
        (X : Externals) (c : Client) (req : Request) (st st1 : State X)
        (err : error) :
  (exists msg,
      Client_doRequest X c req [WithHubToken (token c)] st = (Fail msg, st1)
      /\ err = TransportError msg)
  \/ (exists body msg,
         Client_doRequest X c req [WithHubToken (token c)] st = (Ok body, st1)
         /\ json_Unmarshal_hubTokenResult X body = Fail msg
         /\ err = DecodeError msg) ->
  (forall description scopes,
      validateScopes scopes = None ->
      http_NewRequest X "POST" (domain c +:+ TokensURL)
        (Some (json_Marshal_hubTokenRequest (hubTokenRequest.mk description false scopes)))
      = Ok req ->
      CreateToken X c description scopes st = ((None, Some err), st1))
  /\ (forall tokenUUID,
         http_NewRequest X "GET" (domain c +:+ TokenURL tokenUUID) None = Ok req ->
         GetToken X c tokenUUID st = ((None, Some err), st1))
  /\ (forall tokenUUID description isActive,
         http_NewRequest X "PATCH" (domain c +:+ TokenURL tokenUUID)
           (Some (json_Marshal_hubTokenRequest (hubTokenRequest.mk description isActive [])))
         = Ok req ->
         UpdateToken X c tokenUUID description isActive st = ((None, Some err), st1)).
Proof.
  intros Hfail.
  assert (requestToken X c req st = ((None, Some err), st1)) as Htail.
  { unfold requestToken.
    destruct Hfail as [(msg & Hdo & ->) | (body & msg & Hdo & Hdec & ->)].
    - now rewrite Hdo.
    - now rewrite Hdo, Hdec. }
  repeat split.
  - intros description scopes Hscopes Hreq. unfold CreateToken. now rewrite Hscopes, Hreq.
  - intros tokenUUID Hreq. unfold GetToken. now rewrite Hreq.
  - intros tokenUUID description isActive Hreq. unfold UpdateToken. now rewrite Hreq.
Qed.

Lemma single_token_error_propagates_witness :
  GetToken Mock.X_scripted (Mock.client false) Mock.uuid1 (Mock.start [Ok "<html>"])
  = ((None, Some (DecodeError "unexpected end of JSON input")),
     Build_State Mock.X_scripted []
       [get_request "https://hub.docker.com/v2/api_tokens/8208674e-d08a-426f-b6f4-e3aba7058459"]).
Proof.
  destruct (single_token_error_propagates
              Mock.X_scripted (Mock.client false)
              (get_request "https://hub.docker.com/v2/api_tokens/8208674e-d08a-426f-b6f4-e3aba7058459")
              (Mock.start [Ok "<html>"])
              (Build_State Mock.X_scripted []
                 [get_request "https://hub.docker.com/v2/api_tokens/8208674e-d08a-426f-b6f4-e3aba7058459"])
              (DecodeError "unexpected end of JSON input"))
    as (_ & Hget & _).
  - right. exists "<html>", "unexpected end of JSON input". repeat split; reflexivity.
  - apply Hget. vm_compute. reflexivity.
Defined.





(** X15. Which errors an operation can return. [RevokeToken] has only the
    error of building the request and the executor's error. [GetToken] and
    [UpdateToken] never return [InvalidScope]. An [InvalidScope] error of
    [CreateToken] names a member of the scopes list other than
    "repo:public_read" and comes with the state untouched; an error of
    [CreateToken] from the executor, the decoder or the uuid parser comes
    after exactly one request. *)
Theorem error_kinds (X : Externals) (c : Client) (st : State X) :
  (forall tokenUUID err,
      fst (RevokeToken X c tokenUUID st) = Some err ->
      (exists m, err = RequestError m) \/ (exists m, err = TransportError m))
  /\ (forall tokenUUID tok err st1 s,
         GetToken X c tokenUUID st = ((tok, Some err), st1) -> err <> InvalidScope s)
  /\ (forall tokenUUID description isActive tok err st1 s,
         UpdateToken X c tokenUUID description isActive st = ((tok, Some err), st1) ->
         err <> InvalidScope s)
  /\ (forall description scopes tok s st1,
         CreateToken X c description scopes st = ((tok, Some (InvalidScope s)), st1) ->
         st1 = st /\ In s scopes /\ s <> "repo:public_read")
  /\ (forall description scopes tok err st1,
         CreateToken X c description scopes st = ((tok, Some err), st1) ->
         (forall s, err <> InvalidScope s) ->
         (forall m, err <> RequestError m) ->
         exists req, sent st1 = sent st ++ [req] /\ Method req = "POST").
Proof.
  split; [| split; [| split; [| split]]].
  - intros tokenUUID err. unfold RevokeToken.
    destruct (http_NewRequest X "DELETE" _ None) as [req | m].
    + destruct (Client_doRequest X c req _ st) as [[body | m] st0]; simpl; [discriminate |].
      intros H. inversion H. right. eauto.
    + simpl. intros H. inversion H. left. eauto.
  - intros tokenUUID tok err st1 s. unfold GetToken.
    destruct (http_NewRequest X "GET" _ None) as [req | m].
    + intros H. destruct (requestToken_shape X c req st st1 tok _ H) as [_ [Hok | Herr]].
      * destruct Hok as (t & _ & Hnone). discriminate.
      * destruct Herr as (_ & e & He & Hscope & _). inversion He; subst. apply Hscope.
    + intros H. inversion H; subst. discriminate.
  - intros tokenUUID description isActive tok err st1 s. unfold UpdateToken.
    destruct (http_NewRequest X "PATCH" _ _) as [req | m].
    + intros H. destruct (requestToken_shape X c req st st1 tok _ H) as [_ [Hok | Herr]].
      * destruct Hok as (t & _ & Hnone). discriminate.
      * destruct Herr as (_ & e & He & Hscope & _). inversion He; subst. apply Hscope.
    + intros H. inversion H; subst. discriminate.
  - intros description scopes tok s st1. unfold CreateToken.
    destruct (validateScopes scopes) as [e |] eqn:Hval.
    + intros H. inversion H; subst.
      destruct (validateScopes_sound_and_complete_aux scopes _ Hval) as (x & Hx & Hin & Hne).
      inversion Hx; subst. auto.
    + destruct (http_NewRequest X "POST" _ _) as [req | m].
      * intros H. destruct (requestToken_shape X c req st st1 tok _ H) as [_ [Hok | Herr]].
        -- destruct Hok as (t & _ & Hnone). discriminate.
        -- destruct Herr as (_ & e & He & Hscope & _). inversion He; subst.
           now destruct (Hscope s).
      * intros H. inversion H.
  - intros description scopes tok err st1. unfold CreateToken, http_NewRequest.
    destruct (validateScopes scopes) as [e |] eqn:Hval.
    + intros H Hscope _. inversion H; subst.
      destruct (validateScopes_sound_and_complete_aux scopes _ Hval) as (x & -> & _).
      now destruct (Hscope x).
    + destruct (url_Parse X _) as [u | m].
      * intros H _ _.
        match type of H with
        | requestToken X c ?req st = _ =>
            exists req; split; [| reflexivity];
            pose proof (requestToken_sent X c req st) as Hs; rewrite H in Hs; exact Hs
        end.
      * intros H _ Hreq. inversion H; subst. now destruct (Hreq m).
Qed.

Lemma error_kinds_witness :
  (exists m, TransportError "404 Not Found" = RequestError m)
  \/ (exists m, TransportError "404 Not Found" = TransportError m).
Proof.
  destruct (error_kinds Mock.X_scripted (Mock.client false) (Mock.start [Fail "404 Not Found"]))
    as (Hrevoke & _).
  apply (Hrevoke Mock.uuid1). vm_compute. reflexivity.
Defined.

(** X16. The url of the first page is the collection's url, parsed, with
    the encoding of a query that has exactly two keys: [page] with the one
    value "1" and [page_size] with the one value [itemsPerPage] in decimal. *)
Theorem firstPageURL_query (X : Externals) (c : Client) (s : string) :
  firstPageURL X c = Ok s ->
  exists (u : url_URL X) (q : gmap string (list string)),
    url_Parse X (domain c +:+ "/v2/api_tokens") = Ok u
    /\ s = url_String X (url_set_RawQuery X u (url_Values_Encode X q))
    /\ q !! "page" = Some ["1"]
    /\ q !! "page_size" = Some [pretty (itemsPerPage X)]
    /\ forall k, k <> "page" -> k <> "page_size" -> q !! k = None.
Proof.
  unfold firstPageURL. change TokensURL with "/v2/api_tokens".
  destruct (url_Parse X (domain c +:+ "/v2/api_tokens")) as [u | m]; [| discriminate].
  intros H. inversion H; subst. clear H.
  exists u, (url_Values_Add (url_Values_Add ∅ "page_size" (pretty (itemsPerPage X)))
                            "page" "1").
  split; [reflexivity |]. split; [reflexivity |].
  unfold url_Values_Add. split; [| split].
  - now rewrite lookup_insert_eq, lookup_insert_ne, lookup_empty by discriminate.
  - rewrite lookup_insert_ne by discriminate. now rewrite lookup_insert_eq, lookup_empty.
  - intros k Hp Hs. rewrite !lookup_insert_ne by congruence. apply lookup_empty.
Qed.

Lemma firstPageURL_query_witness :
  exists (u : string) (q : gmap string (list string)),
    Mock.parse_url ("https://hub.docker.com" +:+ "/v2/api_tokens") = Ok u
    /\ "https://hub.docker.com/v2/api_tokens?page=1&page_size=100"
       = u +:+ "?" +:+ Mock.encode_values q
    /\ q !! "page" = Some ["1"]
    /\ q !! "page_size" = Some [pretty 100%Z]
    /\ forall k, k <> "page" -> k <> "page_size" -> q !! k = None.
Proof.
  apply (firstPageURL_query Mock.X_scripted (Mock.client false)
           "https://hub.docker.com/v2/api_tokens?page=1&page_size=100").
  vm_compute. reflexivity.
Defined.

(** X17. With either flag, the tokens [GetTokens] returns without error
    start with the tokens of the first page: following links only appends. *)
Theorem GetTokens_extends_first_page
        (X : Externals) (c : Client) (st st1 st' : State X) (u : string)
        (tokens out : Tokens X) (next : string) (fuel : nat) :
  firstPageURL X c = Ok u ->
  getTokensPage X c u st = ((tokens, next, None), st1) ->
  GetTokens X fuel c st = Some ((out, None), st') ->
  exists rest, out = tokens ++ rest.
Proof.
  intros Hu Hpage. unfold GetTokens. rewrite Hu, Hpage.
  destruct (fetchAllElements c).
  - clear Hpage. revert tokens next st1.
    induction fuel as [| fuel IH]; intros tokens next st1 Hloop.
    + simpl in Hloop. destruct (String.eqb next ""); [| discriminate].
      inversion Hloop; subst. exists []. now rewrite app_nil_r.
    + destruct (String.eqb_spec next "") as [-> | Hne].
      * rewrite GetTokens_loop_empty in Hloop. inversion Hloop; subst.
        exists []. now rewrite app_nil_r.
      * rewrite GetTokens_loop_step in Hloop by assumption.
        destruct (getTokensPage X c next st1) as [[[pt n] [e |]] st0]; [discriminate |].
        destruct (IH _ _ _ Hloop) as [rest ->].
        exists (pt ++ rest). now rewrite app_assoc.
  - intros H. inversion H; subst. exists []. now rewrite app_nil_r.
Qed.

Lemma GetTokens_extends_first_page_witness :
  exists rest,
    [Mock.token Mock.uuid1 "first"; Mock.token Mock.uuid2 "second"]
    = [Mock.token Mock.uuid1 "first"] ++ rest.
Proof.
  apply (GetTokens_extends_first_page
           Mock.X_scripted (Mock.client true) (Mock.start [Ok "page1"; Ok "page2"])
           (Build_State Mock.X_scripted [Ok "page2"]
              [get_request "https://hub.docker.com/v2/api_tokens?page=1&page_size=100"])
           (Build_State Mock.X_scripted []
              [get_request "https://hub.docker.com/v2/api_tokens?page=1&page_size=100";
               get_request "page2url"])
           "https://hub.docker.com/v2/api_tokens?page=1&page_size=100"
           [Mock.token Mock.uuid1 "first"]
           [Mock.token Mock.uuid1 "first"; Mock.token Mock.uuid2 "second"]
           "page2url" 3);
    vm_compute; reflexivity.
Defined.

(** X18. A page fetch whose response decodes to an envelope, the uuid of
    every entry parsing, returns the converted entries in order and the
    envelope's [next] link, in the state the executor left; the envelope's
    [count] and [previous] play no part. *)
Theorem getTokensPage_success
        (X : Externals) (c : Client) (url : string) (st st1 : State X) (req : Request)
        (body : string) (hr : hubTokenResponse.t (time_Time X)) :
  http_NewRequest X "GET" url None = Ok req ->
  Client_doRequest X c req [WithHubToken (token c)] st = (Ok body, st1) ->
  json_Unmarshal_hubTokenResponse X body = Ok hr ->
  Forall (fun r => exists u, uuid_Parse X (hubTokenResult.UUID r) = Ok u)
         (hubTokenResponse.Results hr) ->
  getTokensPage X c url st
  = ((map (fun r => fst (convertToken X r)) (hubTokenResponse.Results hr),
      hubTokenResponse.Next hr, None), st1)
  /\ req = get_request url.
Proof.
  intros Hreq Hdo Hdec Hall. split.
  - unfold getTokensPage. rewrite Hreq, Hdo, Hdec.
    now rewrite (convertResults_parsed X _ [] Hall).
  - unfold http_NewRequest in Hreq. destruct (url_Parse X url); [| discriminate].
    now inversion Hreq.
Qed.

Lemma getTokensPage_success_witness :
  getTokensPage Mock.X_scripted (Mock.client true) "page2url" (Mock.start [Ok "page2"])
  = ((map (fun r => fst (convertToken Mock.X_scripted r)) [Mock.result Mock.uuid2 "second"],
      "", None),
     Build_State Mock.X_scripted [] [get_request "page2url"])
  /\ get_request "page2url" = get_request "page2url".
Proof.
  apply (getTokensPage_success
           Mock.X_scripted (Mock.client true) "page2url" (Mock.start [Ok "page2"])
           (Build_State Mock.X_scripted [] [get_request "page2url"])
           (get_request "page2url") "page2"
           (hubTokenResponse.mk 2 "" "page1url" [Mock.result Mock.uuid2 "second"]));
    [reflexivity | reflexivity | reflexivity |].
  repeat constructor. eexists. reflexivity.
Defined.
